(** * Improved-WGAN training script for CIFAR-10 (Extra_optimistic/script/cifar10.py)

    A shallow embedding of the script and the properties of its loss
    functions, of its interpolation layer, of its pixel (de)normalisation and
    of its training loop.

    Conventions of the embedding.
    - Tensors that live in the Keras graph (losses, gradients, interpolated
      samples) are given twice.  Over the reals, for the formulas and the
      shapes: a rank-1 tensor is a [list R], a batch of samples a
      [list (list R)] (sample axis first, every sample flattened in memory
      order), and arithmetic is exact.  In binary32, for what the backend
      computes, where rounding decides a property (modules [K32] and
      [Float32]).
    - Arrays handled by numpy outside the graph (pixels) hold rationals, so
      that the definitions compute; the pixel arithmetic is given a second
      time in binary32.
    - The script's top level is a program in a state-and-exception monad
      over numpy's random generator, the Keras graph as an opaque state,
      the array [X_train] and an append-only log of the calls made to Keras
      and to the file system; the state of the graph is the one these
      calls leave, in the order of the log.  What has no effect on the control flow is
      left out: the [print] calls, the two loss lists (appended to, never
      read), the [trainable] flags and the construction of the two graphs
      (lines 277-283 and 324-371), of which the log keeps the two
      [compile] calls. *)

From Corelib Require Import SpecFloat.
From Stdlib Require Import String Ascii Decimal DecimalString.
From Stdlib Require Import List ZArith QArith Qround Reals Qreals Lra Lia Bool Permutation.
From Stdlib Require Import DecimalZ Psatz.
From Stdlib Require DecimalPos.
Import ListNotations.

Set Implicit Arguments.

(** Line 41. *)
Definition BATCH_SIZE : Z := 64.

(** ** The Keras backend operations the losses use *)

Module K.

Local Open Scope R_scope.

(** A batch of flattened samples. *)
Definition tensor := list (list R).

(** [K.sum] of a rank-1 tensor, of a batch, and of a stack of batches. *)
Fixpoint sum (v : list R) : R :=
  match v with
  | [] => 0
  | x :: v' => x + sum v'
  end.

Definition sum2 (t : tensor) : R := sum (map sum t).

Definition sum3 (ts : list tensor) : R := sum (map sum2 ts).

(** [K.mean] over all the elements of a rank-1 tensor (of an empty tensor
    the backend returns NaN, which the reals do not have). *)
Definition mean (v : list R) : R := sum v / INR (length v).

(** [K.square], elementwise. *)
Definition square (v : list R) : list R := map Rsqr v.

Definition square3 (ts : list tensor) : list tensor := map (map square) ts.

(** [K.sqrt]: the backend clips its argument at zero, as [sqrt] does. *)
Definition sqrt (x : R) : R := R_sqrt.sqrt x.

(** Elementwise binary operation on the batch axis with numpy broadcasting:
    the lengths agree, or one of them is 1; anything else is a shape error. *)
Fixpoint zip_with (f : R -> R -> R) (a b : list R) : list R :=
  match a, b with
  | x :: a', y :: b' => f x y :: zip_with f a' b'
  | _, _ => []
  end.

Definition broadcast2 (f : R -> R -> R) (a b : list R) : option (list R) :=
  if Nat.eqb (length a) (length b) then Some (zip_with f a b)
  else match a, b with
       | [x], _ => Some (map (f x) b)
       | _, [y] => Some (map (fun x => f x y) a)
       | _, _ => None
       end.

Definition mul := broadcast2 Rmult.
Definition add := broadcast2 Rplus.

(** A Python scalar times a tensor, and unary minus. *)
Definition scale (a : R) (v : list R) : list R := map (Rmult a) v.
Definition neg (v : list R) : list R := map Ropp v.

End K.

(** ** Loss functions *)

Local Open Scope R_scope.

(** [wasserstein_loss]: [K.mean(y_true * y_pred)]; [None] is the shape error
    of the product. *)
Definition wasserstein_loss (y_true y_pred : list R) : option R :=
  match K.mul y_true y_pred with
  | Some prod => Some (K.mean prod)
  | None => None
  end.

Section GradientPenalty.

(** [K.gradients(loss, variables)]: the automatic differentiation of the
    backend, which returns one gradient tensor per variable.  A graph node
    that depends on [averaged_samples] is a function of it. *)
Variable K_gradients : (K.tensor -> R) -> K.tensor -> list K.tensor.

Definition gradient_penalty_loss (y_true : list R) (y_pred : K.tensor -> list R)
    (averaged_samples : K.tensor) (gradient_penalty_weight : R) : R :=
  let gradients := K_gradients (fun x => K.sum (y_pred x)) averaged_samples in
  let gradient_l2_norm := K.sqrt (K.sum3 (K.square3 gradients)) in
  let gradient_penalty := gradient_penalty_weight * Rsqr (1 - gradient_l2_norm) in
  gradient_penalty.

(** The gradient of the summed prediction with respect to the averaged
    samples, as one batch of per-sample gradients. *)
Definition batch_gradient (y_pred : K.tensor -> list R)
    (averaged_samples : K.tensor) : K.tensor :=
  concat (K_gradients (fun x => K.sum (y_pred x)) averaged_samples).

End GradientPenalty.

(** The L2 norm of a vector, and of a batch taken as one long vector. *)
Definition l2_norm (v : list R) : R := R_sqrt.sqrt (K.sum (map (fun x => x * x) v)).

Definition frobenius_norm (g : K.tensor) : R := l2_norm (concat g).

(** What a per-sample penalty would be: one penalty per sample, from that
    sample's own gradient norm, then averaged or summed over the batch. *)
Definition per_sample_penalties (w : R) (g : K.tensor) : list R :=
  map (fun s => w * Rsqr (1 - l2_norm s)) g.

Definition per_sample_mean_penalty (w : R) (g : K.tensor) : R :=
  K.mean (per_sample_penalties w g).

Definition per_sample_sum_penalty (w : R) (g : K.tensor) : R :=
  K.sum (per_sample_penalties w g).

(** ** The interpolation layer [RandomWeightedAverage] *)

Section RandomWeightedAverage.

Local Open Scope R_scope.

(** The backend's random generator and [K.random_uniform((n, 1, 1, 1))]
    with its default bounds: [n] values, one per sample. *)
Variable Gen : Type.
Variable K_random_uniform : Z -> Gen -> list R * Gen.

(** The contract of the backend's uniform generator with its default
    bounds: as many values as asked for, each in [0, 1). *)
Definition uniform_contract : Prop :=
  forall n g,
    length (fst (K_random_uniform n g)) = Z.to_nat n /\
    Forall (fun w => 0 <= w < 1) (fst (K_random_uniform n g)).

(** A tensor of shape [(n, 1, 1, 1)] times a batch: each weight multiplies
    every component of its sample; the sample axis broadcasts. *)
Fixpoint scale_rows (ws : list R) (t : K.tensor) : K.tensor :=
  match ws, t with
  | w :: ws', s :: t' => K.scale w s :: scale_rows ws' t'
  | _, _ => []
  end.

Definition weighted (ws : list R) (t : K.tensor) : option K.tensor :=
  if Nat.eqb (length ws) (length t) then Some (scale_rows ws t)
  else match ws, t with
       | [w], _ => Some (map (K.scale w) t)
       | _, [s] => Some (map (fun w => K.scale w s) ws)
       | _, _ => None
       end.

(** The sum of two batches of the same number of samples. *)
Fixpoint add_rows (a b : K.tensor) : option K.tensor :=
  match a, b with
  | [], [] => Some []
  | x :: a', y :: b' =>
      match K.add x y, add_rows a' b' with
      | Some z, Some c => Some (z :: c)
      | _, _ => None
      end
  | _, _ => None
  end.

Definition _merge_function (inputs : list K.tensor) (g : Gen)
  : option K.tensor * Gen :=
  let '(weights, g') := K_random_uniform BATCH_SIZE g in
  (match nth_error inputs 0, nth_error inputs 1 with
   | Some inputs0, Some inputs1 =>
       match weighted weights inputs0,
             weighted (map (fun w => 1 - w) weights) inputs1 with
       | Some a, Some b => add_rows a b
       | _, _ => None
       end
   | _, _ => None
   end, g').

End RandomWeightedAverage.

(** A generator that always draws the same two-valued pattern, and the
    gradient of a discriminator that sums the components of its input. *)
Definition toy_uniform (n : Z) (g : nat) : list R * nat :=
  (map (fun i => if Nat.even i then 0 else 1 / 2)%R (seq 0 (Z.to_nat n)), S g).

Definition ones_gradient (_ : K.tensor -> R) (x : K.tensor) : list K.tensor :=
  [map (map (fun _ => 1%R)) x].

(** Two batches of [BATCH_SIZE] two-component samples. *)
Definition toy_real : K.tensor := repeat [1; 3]%R (Z.to_nat BATCH_SIZE).
Definition toy_generated : K.tensor := repeat [2; -1]%R (Z.to_nat BATCH_SIZE).

(** ** Python integers, ranges, slices, strings and paths *)

Module Py.

Local Open Scope Z_scope.

Inductive exn :=
| ZeroDivisionError
| ValueError (msg : string)
| KeyError (key : string)
| UnboundLocalError (name : string)
| OSError (path : string).

(** [a // b] on integers: floor division, an exception on a zero divisor. *)
Definition floordiv (a b : Z) : exn + Z :=
  if b =? 0 then inl ZeroDivisionError else inr (a / b).

(** [range(n)]: empty when [n <= 0]. *)
Definition range (n : Z) : list Z := map Z.of_nat (seq 0 (Z.to_nat n)).

(** [l[lo:hi]]: a negative bound counts from the end, every bound is
    clamped to [0, len(l)], and an empty interval gives the empty list. *)
Definition clamp (len i : Z) : Z :=
  if i <? 0 then Z.max (i + len) 0 else Z.min i len.

Definition slice {A : Type} (l : list A) (lo hi : Z) : list A :=
  let len := Z.of_nat (length l) in
  let lo' := clamp len lo in
  let hi' := clamp len hi in
  firstn (Z.to_nat (hi' - lo')) (skipn (Z.to_nat lo') l).

(** [str(n)] for an integer. *)
Definition str (n : Z) : string := NilZero.string_of_int (Z.to_int n).

(** [s.startswith(c)] and [s.endswith(c)] for a one-character [c]. *)
Definition startswith (s : string) (c : ascii) : bool :=
  match s with
  | String a _ => Ascii.eqb a c
  | EmptyString => false
  end.

Fixpoint endswith (s : string) (c : ascii) : bool :=
  match s with
  | EmptyString => false
  | String a EmptyString => Ascii.eqb a c
  | String _ s' => endswith s' c
  end.

(** [os.path.join(a, b)] of posixpath. *)
Definition os_path_join (a b : string) : string :=
  if startswith b "/" then b
  else if (String.length a =? 0)%nat || endswith a "/" then (a ++ b)%string
  else (a ++ "/" ++ b)%string.

(** [x == y] on values that are [None] or a string. *)
Definition eq_opt_string (x y : option string) : bool :=
  match x, y with
  | None, None => true
  | Some a, Some b => String.eqb a b
  | _, _ => false
  end.

(** [x in l] for such values. *)
Definition In_ (x : option string) (l : list (option string)) : bool :=
  existsb (eq_opt_string x) l.

(** Truth value of a string-or-None: [None] and [''] are false. *)
Definition truthy (x : option string) : bool :=
  match x with
  | None => false
  | Some s => negb (String.length s =? 0)%nat
  end.

End Py.

(** ** numpy on pixels *)

Local Open Scope Q_scope.

(** A raw image of the dataset: its [uint8] values in memory order.  A
    sample of [X_train]: the normalised values, in the same order. *)
Definition RawImage := list Z.
Definition Sample := list Q.

(** [np.round]: to the nearest integer, a tie to the even one. *)
Definition np_round (x : Q) : Z :=
  let f := Qfloor x in
  match Qcompare (x - inject_Z f) (1 # 2) with
  | Lt => f
  | Gt => (f + 1)%Z
  | Eq => if Z.even f then f else (f + 1)%Z
  end.

(** [.astype(np.uint8)] of an integral value; exact on [0, 255] (the model
    wraps outside, where numpy's result depends on the platform). *)
Definition astype_uint8 (z : Z) : Z := (z mod 256)%Z.

(** Line 258: [(X_train.astype(np.float32) - 127.5) / 127.5], per pixel. *)
Definition normalize_pixel (v : Z) : Q := (inject_Z v - (255 # 2)) / (255 # 2).

(** Lines 217-218: [(t * 127.5) + 127.5], then [np.round], then the cast. *)
Definition denormalize_value (t : Q) : Q := (t * (255 # 2)) + (255 # 2).

Definition denormalize_pixel (t : Q) : Z :=
  astype_uint8 (np_round (denormalize_value t)).

(** *** The same in binary32

    The arrays are [float32]: the pixel arithmetic again, with the IEEE 754
    operations of that format (24 bits of precision, round to nearest even). *)

Module F32.

Local Open Scope Z_scope.

Definition prec : Z := 24.
Definition emax : Z := 128.

(** The float nearest to [m * 2^e]. *)
Definition of_scaled (m e : Z) : spec_float := binary_normalize prec emax m e false.

(** [astype(np.float32)] of an integer, and the constant [127.5]. *)
Definition of_Z (v : Z) : spec_float := of_scaled v 0.
Definition c127_5 : spec_float := of_scaled 255 (-1).

(** [np.round] followed by the conversion to an integer type: nearest
    integer, ties to even; infinities and NaN have no integer value. *)
Definition round_to_Z (x : spec_float) : option Z :=
  match x with
  | S754_zero _ => Some 0
  | S754_finite s m e =>
      let mag :=
        if 0 <=? e then Z.pos m * 2 ^ e
        else
          let d := 2 ^ (- e) in
          let q := Z.pos m / d in
          let r := Z.pos m mod d in
          match 2 * r ?= d with
          | Lt => q
          | Gt => q + 1
          | Eq => if Z.even q then q else q + 1
          end in
      Some (if s then - mag else mag)
  | S754_infinity _ | S754_nan => None
  end.

Definition normalize_pixel (v : Z) : spec_float :=
  SFdiv prec emax (SFsub prec emax (of_Z v) c127_5) c127_5.

Definition denormalize_value (t : spec_float) : spec_float :=
  SFadd prec emax (SFmul prec emax t c127_5) c127_5.

Definition denormalize_pixel (t : spec_float) : option Z :=
  option_map astype_uint8 (round_to_Z (denormalize_value t)).

End F32.

(** ** The command line *)

Inductive model_family := resnet | std_conv.

(** The namespace [parser.parse_args()] returns.  [--model] is restricted by
    argparse to its two choices; [--schedule] and [--retrain_dir] default to
    [None]; the float options are rationals. *)
Record Args := {
  output_dir : string;
  optimizer_lr : Q;
  momentum : Q;
  nesterov : bool;
  optimizer : string;
  model : model_family;
  schedule : option string;
  gp : Q;
  beta_1 : Q;
  beta_2 : Q;
  version : option Z;
  retrain_dir : option string;
  retrain_epoch : Z;
  training_ratio : Z
}.

(** ** What the script calls and does not define *)

(** The optimizer objects the script constructs (the classes come from Keras
    and from the repository's [optimizer] module). *)
Inductive optimizer_obj :=
| Adam (lr b1 b2 : Q)
| Adagrad (lr : Q)
| SGD (lr mom : Q) (nest : bool)
| OFRL (lr : Q) (ver : option Z) (sched : option string)
| OMDA (lr : Q) (ver : option Z) (sched : option string)
| optimAdam (lr b1 b2 : Q)
| ExtraoptimAdam (lr b1 b2 : Q)
| optimAdagrad (lr : Q).

Inductive network := generator | discriminator.

Inductive keras_model := generator_model | discriminator_model.

(** The external collaborators: numpy's global random generator, the
    dataset, the file system as the script finds it, and the Keras graph
    (weights, optimizer slots and the backend's own generator) as one
    opaque state. *)
Record Externals := {
  Rng : Type;
  Noise : Type;
  Backend : Type;
  np_random_shuffle : Rng -> list Sample -> list Sample * Rng;
  np_random_rand : Z -> Z -> Rng -> Noise * Rng;
  astype_float32 : Noise -> Noise;
  cifar10_load_data : (list RawImage * list Z) * (list RawImage * list Z);
  exists_ : string -> bool;
  load_weights : network -> string -> Backend -> Py.exn + Backend;
  compile : keras_model -> optimizer_obj -> Backend -> Backend;
  discriminator_model_train_on_batch :
    list Sample -> Noise -> list (list Q) -> Backend -> Backend;
  generator_model_train_on_batch : Noise -> list Q -> Backend -> Backend;
  generator_predict : Noise -> Backend -> list (list spec_float)
}.

(** ** The calls the script makes, in order *)

Inductive event (E : Externals) :=
| Makedirs (path : string)
| LoadWeights (net : network) (path : string)
| Compile (m : keras_model) (optim : optimizer_obj)
| Shuffle
| TrainDiscriminator (image_batch : list Sample) (noise : Noise E)
    (y : list (list Q))
| TrainGenerator (noise : Noise E) (y : list Q)
| ImageSave (path : string)
| PickleDump (path : string) (test_image_stack : list (list (option Z)))
| SaveWeights (net : network) (path : string).

Arguments Makedirs {E}.
Arguments LoadWeights {E}.
Arguments Compile {E}.
Arguments Shuffle {E}.
Arguments TrainDiscriminator {E}.
Arguments TrainGenerator {E}.
Arguments ImageSave {E}.
Arguments PickleDump {E}.
Arguments SaveWeights {E}.

(** A training step is a call to [train_on_batch]. *)
Definition is_train_step {E} (e : event E) : bool :=
  match e with
  | TrainDiscriminator _ _ _ | TrainGenerator _ _ => true
  | _ => false
  end.

(** The file an event writes, if any. *)
Definition written_file {E} (e : event E) : option string :=
  match e with
  | ImageSave p | PickleDump p _ | SaveWeights _ p => Some p
  | _ => None
  end.

Fixpoint files_written {E} (l : list (event E)) : list string :=
  match l with
  | [] => []
  | e :: l' =>
      match written_file e with
      | Some p => p :: files_written l'
      | None => files_written l'
      end
  end.

(** ** The state of a run and its monad *)

Record state (E : Externals) := {
  rng : Rng E;
  backend : Backend E;
  X_train : list Sample;
  log : list (event E)
}.

Inductive result (A : Type) :=
| Ok (a : A)
| Raise (e : Py.exn).

Arguments Ok {A}.
Arguments Raise {A}.

Definition M (E : Externals) (A : Type) : Type := state E -> result A * state E.

Definition ret {E A} (a : A) : M E A := fun s => (Ok a, s).

Definition bind {E A B} (c : M E A) (k : A -> M E B) : M E B :=
  fun s =>
    match c s with
    | (Ok a, s') => k a s'
    | (Raise e, s') => (Raise e, s')
    end.

Definition raise {E A} (e : Py.exn) : M E A := fun s => (Raise e, s).

Declare Scope script_scope.
Delimit Scope script_scope with script.
Notation "x <- c ;; k" := (bind c (fun x => k))
  (at level 61, c at next level, right associativity) : script_scope.
Notation "c ;; k" := (bind c (fun _ => k))
  (at level 61, right associativity) : script_scope.

(** [for x in l: body]. *)
Fixpoint for_each {E A} (l : list A) (body : A -> M E unit) : M E unit :=
  match l with
  | [] => ret tt
  | x :: l' => bind (body x) (fun _ => for_each l' body)
  end.

Definition emit {E} (e : event E) : M E unit :=
  fun s => (Ok tt, {| rng := rng s; backend := backend s;
                      X_train := X_train s; log := log s ++ [e] |}).

Definition lift_exn {E A} (r : Py.exn + A) : M E A :=
  match r with
  | inl e => raise e
  | inr a => ret a
  end.

Definition get_X_train {E} : M E (list Sample) := fun s => (Ok (X_train s), s).

Definition set_X_train {E} (X : list Sample) : M E unit :=
  fun s => (Ok tt, {| rng := rng s; backend := backend s;
                      X_train := X; log := log s |}).

Definition with_backend {E} (f : Backend E -> Backend E) : M E unit :=
  fun s => (Ok tt, {| rng := rng s; backend := f (backend s);
                      X_train := X_train s; log := log s |}).

Definition try_backend {E} (f : Backend E -> Py.exn + Backend E) : M E unit :=
  fun s =>
    match f (backend s) with
    | inl e => (Raise e, s)
    | inr b => (Ok tt, {| rng := rng s; backend := b;
                          X_train := X_train s; log := log s |})
    end.

Definition read_backend {E A} (f : Backend E -> A) : M E A :=
  fun s => (Ok (f (backend s)), s).

(** [np.random.rand(r, c)]: one draw from the global generator. *)
Definition rand {E} (r c : Z) : M E (Noise E) :=
  fun s =>
    let '(n, g) := np_random_rand E r c (rng s) in
    (Ok n, {| rng := g; backend := backend s;
              X_train := X_train s; log := log s |}).

(** [np.random.shuffle(X_train)]: in place, along the first axis. *)
Definition shuffle {E} : M E unit :=
  fun s =>
    let '(X, g) := np_random_shuffle E (rng s) (X_train s) in
    (Ok tt, {| rng := g; backend := backend s;
               X_train := X; log := log s ++ [Shuffle] |}).

(** ** The script *)

(** Lines 375-377: the three label vectors, of shape [(BATCH_SIZE, 1)]. *)
Definition positive_y : list Q := repeat 1 (Z.to_nat BATCH_SIZE).
Definition negative_y : list Q := map Qopp positive_y.
Definition dummy_y : list Q := repeat 0 (Z.to_nat BATCH_SIZE).

(** The names of the files of a checkpoint. *)
Definition epoch_file (dir : string) (epoch : Z) (suffix : string) : string :=
  Py.os_path_join dir ("epoch_" ++ Py.str epoch ++ suffix)%string.

Section Script.

Variable E : Externals.
Variable args : Args.

Local Open Scope script_scope.
Local Open Scope Z_scope.

Definition GRADIENT_PENALTY_WEIGHT : Q := gp args.
Definition TRAINING_RATIO : Z := training_ratio args.

(** Lines 252-258.  [np.concatenate(..., axis=0)] appends the test images
    to the train images.  [cifar10.load_data()] returns images of shape
    [(32, 32, 3)] (the image data format being the default one), which
    the reshape of lines 254-257 leaves as they are
    (it keeps the sample axis and the memory order of every sample); the
    normalisation is elementwise, and given here in exact arithmetic
    ([F32.normalize_pixel] is the value the array holds). *)
Definition load_dataset : M E unit :=
  let '((X_train, y_train), (X_test, y_test)) := cifar10_load_data E in
  let X_train := X_train ++ X_test in
  let X_train := map (map normalize_pixel) X_train in
  set_X_train X_train.

(** Lines 261-266.  The layers of the standard networks come from Keras.
    [residual_block] reads its local [x] before any assignment, so building
    the residual networks raises at the first block.  (Lines 169 and 187
    pass positional arguments after a keyword argument, which Python refuses
    when it compiles the file; the embedding describes the script with
    these two calls set aside, as part of builders that raise anyway.) *)
Definition make_networks (family : model_family) : M E unit :=
  match family with
  | std_conv => ret tt
  | resnet => raise (Py.UnboundLocalError "x")
  end.

(** Lines 268-270. *)
Definition reload_weights : M E unit :=
  if Py.truthy (retrain_dir args) then
    match retrain_dir args with
    | Some dir =>
        let g := epoch_file dir (retrain_epoch args) "_g.h5" in
        let d := epoch_file dir (retrain_epoch args) "_d.h5" in
        try_backend (load_weights E generator g) ;;
        emit (LoadWeights generator g) ;;
        try_backend (load_weights E discriminator d) ;;
        emit (LoadWeights discriminator d)
    | None => ret tt
    end
  else ret tt.

(** Lines 285-286. *)
Definition check_schedule : M E unit :=
  if negb (Py.In_ (schedule args) [None; Some "adagrad"; Some "adam"]%string)
  then raise (Py.ValueError
                ("schedule " ++ match schedule args with
                                | Some s => s
                                | None => "None"
                                end ++ " not recognized!")%string)
  else ret tt.

(** Lines 288-316: the pair [(d_optim, g_optim)].  The last branch looks
    [args.optimizer] up in [optim_mapper]; it is reached with a key other
    than the three tested before it, so of the five keys of the dictionary
    only ['OFRL'] and ['OMDA'] can be found there, and any other key raises. *)
Definition optim_mapper (key : string)
  : Py.exn + (Q -> option Z -> option string -> optimizer_obj) :=
  if String.eqb key "OFRL" then inr OFRL
  else if String.eqb key "OMDA" then inr OMDA
  else inl (Py.KeyError key).

Definition make_optimizers : M E (optimizer_obj * optimizer_obj) :=
  if String.eqb (optimizer args) "SGD" then
    if Py.eq_opt_string (schedule args) (Some "adam"%string) then
      ret (Adam (1 # 10000) (1 # 2) (9 # 10), Adam (1 # 10000) (1 # 2) (9 # 10))
    else
      let o := if Py.eq_opt_string (schedule args) (Some "adagrad"%string)
               then Adagrad (optimizer_lr args)
               else SGD (optimizer_lr args) (momentum args) (nesterov args) in
      ret (o, o)
  else if String.eqb (optimizer args) "optimAdam" then
    let o := optimAdam (optimizer_lr args) (beta_1 args) (beta_2 args) in
    ret (o, o)
  else if String.eqb (optimizer args) "extraOptimAdam" then
    let o := ExtraoptimAdam (optimizer_lr args) (beta_1 args) (beta_2 args) in
    ret (o, o)
  else if String.eqb (optimizer args) "optimAdagrad" then
    let o := optimAdagrad (optimizer_lr args) in
    ret (o, o)
  else
    mk <- lift_exn (optim_mapper (optimizer args)) ;;
    let o := mk (optimizer_lr args) (version args) (schedule args) in
    ret (o, o).

(** Lines 214-225, called with the generator network.  The prediction is
    a [float32] array, de-normalised in that format; a value that is an
    infinity or NaN has no pixel value ([None]).  The generator of
    [make_generator] returns 100 images of shape [(32, 32, 3)]: on such a
    stack [np.squeeze] changes nothing and the assertion of [tile_images]
    holds, so that [tile_images], given further down, only rearranges the
    values for the PNG; writing a file is taken to succeed. *)
Definition generate_images (output_dir : string) (epoch : Z) : M E unit :=
  noise <- rand 100 100 ;;
  test_image_stack <- read_backend (generator_predict E noise) ;;
  let test_image_stack := map (map F32.denormalize_pixel) test_image_stack in
  emit (ImageSave (epoch_file output_dir epoch ".png")) ;;
  emit (PickleDump (epoch_file output_dir epoch ".pkl") test_image_stack).

(** Lines 393-396: the discriminator updates of one minibatch group. *)
Definition discriminator_updates (discriminator_minibatches : list Sample)
  : M E unit :=
  for_each (Py.range TRAINING_RATIO) (fun j =>
    let image_batch :=
      Py.slice discriminator_minibatches (j * BATCH_SIZE) ((j + 1) * BATCH_SIZE) in
    noise <- rand BATCH_SIZE 100 ;;
    let noise := astype_float32 E noise in
    let y := [positive_y; negative_y; dummy_y] in
    with_backend (discriminator_model_train_on_batch E image_batch noise y) ;;
    emit (TrainDiscriminator image_batch noise y)).

(** Line 397: the generator update that closes a group. *)
Definition generator_update : M E unit :=
  noise <- rand BATCH_SIZE 100 ;;
  with_backend (generator_model_train_on_batch E noise positive_y) ;;
  emit (TrainGenerator noise positive_y).

(** Lines 385-397: the groups of one epoch. *)
Definition train_epoch : M E unit :=
  let minibatches_size := BATCH_SIZE * TRAINING_RATIO in
  X <- get_X_train ;;
  n <- lift_exn (Py.floordiv (Z.of_nat (length X)) (BATCH_SIZE * TRAINING_RATIO)) ;;
  for_each (Py.range n) (fun i =>
    let discriminator_minibatches :=
      Py.slice X (i * minibatches_size) ((i + 1) * minibatches_size) in
    discriminator_updates discriminator_minibatches ;;
    generator_update).

(** Lines 401-405. *)
Definition checkpoint (epoch : Z) : M E unit :=
  if (epoch + 1) mod 2 =? 0 then
    generate_images (output_dir args) epoch ;;
    emit (SaveWeights generator (epoch_file (output_dir args) epoch "_g.h5")) ;;
    emit (SaveWeights discriminator (epoch_file (output_dir args) epoch "_d.h5"))
  else ret tt.

(** Lines 379-405: the body of [for epoch in range(50)]. *)
Definition epoch_body (epoch : Z) : M E unit :=
  shuffle ;;
  train_epoch ;;
  checkpoint epoch.

Definition training_loop : M E unit := for_each (Py.range 50) epoch_body.

(** Lines 245-405: the whole script after argument parsing. *)
Definition main : M E unit :=
  (if negb (exists_ E (output_dir args))
   then emit (Makedirs (output_dir args)) else ret tt) ;;
  load_dataset ;;
  make_networks (model args) ;;
  reload_weights ;;
  check_schedule ;;
  optims <- make_optimizers ;;
  let '(d_optim, g_optim) := optims in
  with_backend (compile E generator_model g_optim) ;;
  emit (Compile generator_model g_optim) ;;
  with_backend (compile E discriminator_model d_optim) ;;
  emit (Compile discriminator_model d_optim) ;;
  training_loop.

End Script.

(** ** What a training epoch is expected to do

    The schedule in closed form: the noise batches are the successive
    draws of the generator, the image batches the consecutive chunks of
    [BATCH_SIZE] samples of the shuffled array. *)

Section Schedule.

Variable E : Externals.

(** One call [np.random.rand(BATCH_SIZE, 100)]. *)
Definition draw (g : Rng E) : Noise E * Rng E := np_random_rand E BATCH_SIZE 100 g.

(** The generator state after [n] such calls, and the result of the next. *)
Fixpoint rng_after (n : nat) (g : Rng E) : Rng E :=
  match n with
  | O => g
  | S n' => rng_after n' (snd (draw g))
  end.

Definition nth_noise (g : Rng E) (k : nat) : Noise E := fst (draw (rng_after k g)).

(** The [k]-th run of [BATCH_SIZE] consecutive samples. *)
Definition chunk (X : list Sample) (k : nat) : list Sample :=
  firstn (Z.to_nat BATCH_SIZE) (skipn (k * Z.to_nat BATCH_SIZE) X).

(** Group [i] of an epoch that starts from the generator state [g0]:
    [ratio] discriminator steps, then one generator step. *)
Definition expected_group_events (X : list Sample) (ratio : nat) (g0 : Rng E)
    (i : nat) : list (event E) :=
  let g := rng_after (i * (ratio + 1)) g0 in
  map (fun j =>
         TrainDiscriminator (chunk X (i * ratio + j))
           (astype_float32 E (nth_noise g j))
           [positive_y; negative_y; dummy_y])
      (seq 0 ratio)
  ++ [TrainGenerator (nth_noise g ratio) positive_y].

Definition groups_per_epoch (X : list Sample) (ratio : nat) : nat :=
  (length X / (Z.to_nat BATCH_SIZE * ratio))%nat.

Definition expected_epoch_events (X : list Sample) (ratio : nat) (g0 : Rng E)
  : list (event E) :=
  flat_map (expected_group_events X ratio g0) (seq 0 (groups_per_epoch X ratio)).




(** The files of the checkpoint of the loop index [epoch]. *)
Definition checkpoint_files (dir : string) (epoch : Z) : list string :=
  [epoch_file dir epoch ".png"; epoch_file dir epoch ".pkl";
   epoch_file dir epoch "_g.h5"; epoch_file dir epoch "_d.h5"].

(** The part of the log that one pass through the loop body with index
    [epoch] appends: the shuffle, training steps only, then the events of
    the checkpoint, which write the checkpoint files exactly when
    [(epoch + 1) % 2 == 0]. *)
Definition epoch_segment (dir : string) (epoch : Z) (evs : list (event E)) : Prop :=
  exists train ckpt,
    evs = Shuffle :: train ++ ckpt /\
    forallb is_train_step train = true /\
    existsb is_train_step ckpt = false /\
    files_written ckpt =
      if ((epoch + 1) mod 2 =? 0)%Z then checkpoint_files dir epoch else [].

(** [np.random.shuffle] permutes its argument. *)
Definition shuffle_contract : Prop :=
  forall g X, Permutation X (fst (np_random_shuffle E g X)).

(** What a logged call does to the Keras graph: a training step is one
    call to [train_on_batch] of the model concerned, with the arguments
    logged; weights are loaded and a model is compiled as logged; the other
    calls leave the graph alone. *)
Definition apply_call (e : event E) (b : Backend E) : Backend E :=
  match e with
  | LoadWeights net path =>
      match load_weights E net path b with
      | inr b' => b'
      | inl _ => b
      end
  | Compile m optim => compile E m optim b
  | TrainDiscriminator image_batch noise y =>
      discriminator_model_train_on_batch E image_batch noise y b
  | TrainGenerator noise y => generator_model_train_on_batch E noise y b
  | _ => b
  end.

(** The graph after the calls of a log, made in order. *)
Definition backend_after (evs : list (event E)) (b : Backend E) : Backend E :=
  fold_left (fun b e => apply_call e b) evs b.


(** A computation that returns after [n] draws of noise, leaves [X_train]
    as it was, appends [evs] to the log and has made the calls of [evs] on
    the graph. *)
Definition runs (c : M E unit) (s : state E) (n : nat) (evs : list (event E))
  : Prop :=
  exists s',
    c s = (Ok tt, s') /\ rng s' = rng_after n (rng s) /\
    X_train s' = X_train s /\ log s' = log s ++ evs /\
    backend s' = backend_after evs (backend s).


(** A computation that never shortens the log, and what it appends. *)
Definition appends (P : list (event E) -> Prop) (s s' : state E) : Prop :=
  exists evs, log s' = log s ++ evs /\ P evs.

(** A computation whose final state is always related to its initial
    state by [R], whether it returns or raises. *)
Definition preserves (R : state E -> state E -> Prop) {A} (c : M E A) : Prop :=
  forall s, R s (snd (c s)).

(** A computation that raises from every state. *)
Definition fails {A} (c : M E A) : Prop :=
  forall s, exists e, fst (c s) = Raise e.

(** No training step among the appended events. *)
Definition no_training (s s' : state E) : Prop :=
  appends (fun evs => existsb is_train_step evs = false) s s'.

(** The same, and [X_train] is left as it was. *)
Definition quiet (s s' : state E) : Prop :=
  X_train s' = X_train s /\ no_training s s'.

End Schedule.

(** ** A small concrete world, to run the script on

    The generator state, a noise batch and the backend state are counters;
    the shuffle reverses the array; the dataset has 100 train images and 30
    test images of one pixel of three channels each, numbered in order; the
    generator always predicts the same two images of shape [(2, 2, 3)]. *)

Definition toy_train : list RawImage :=
  map (fun i => [Z.of_nat i; Z.of_nat i; Z.of_nat i]) (seq 0 100).
Definition toy_test : list RawImage :=
  map (fun i => [Z.of_nat i; Z.of_nat i; Z.of_nat i]) (seq 100 30).

Definition toy : Externals := {|
  Rng := nat;
  Noise := nat;
  Backend := nat;
  np_random_shuffle := fun g X => (rev X, S g);
  np_random_rand := fun _ _ g => (g, S g);
  astype_float32 := fun n => n;
  cifar10_load_data := ((toy_train, repeat 0%Z 100), (toy_test, repeat 0%Z 30));
  exists_ := fun _ => true;
  load_weights := fun _ _ b => inr b;
  compile := fun _ _ b => b;
  discriminator_model_train_on_batch := fun _ _ _ b => S b;
  generator_model_train_on_batch := fun _ _ b => S b;
  generator_predict := fun _ _ =>
    [repeat (F32.of_Z 1) 12; repeat (F32.of_scaled (-1) (-2)) 12]
|}.

Definition toy_args (ratio : Z) (sched : option string) : Args := {|
  output_dir := "out";
  optimizer_lr := 1 # 10000;
  momentum := 0;
  nesterov := false;
  optimizer := "SGD";
  model := std_conv;
  schedule := sched;
  gp := 10;
  beta_1 := 1 # 2;
  beta_2 := 9 # 10;
  version := None;
  retrain_dir := None;
  retrain_epoch := (-1)%Z;
  training_ratio := ratio
|}.

Definition toy_start : state toy := @Build_state toy 0%nat 0%nat [] [].

(** The small world once the dataset is loaded. *)
Definition toy_loaded : state toy := snd (load_dataset (E := toy) toy_start).

(** ** Tiling the preview images *)

(** A numpy array: its shape and its elements in memory (row-major) order. *)
Record ndarray := {
  shape : list nat;
  data : list Z
}.

Definition size (sh : list nat) : nat := fold_right Nat.mul 1%nat sh.

Definition well_formed (a : ndarray) : Prop := length (data a) = size (shape a).

(** What [tile_images] can raise: its own assertion, and the [ValueError]
    of [np.concatenate] on an empty list. *)
Inductive tile_exn := AssertionError | ConcatenateValueError.

(** Lines 193-198.  [image_stack[i, :, :, :]] is the [i]-th run of
    [h * w * c] elements; the images of [image_list] have one shape, and
    [np.concatenate(..., axis=1)] puts, for each row index, the rows of all
    the images one after the other. *)
Definition tile_images (image_stack : ndarray) : tile_exn + ndarray :=
  match shape image_stack with
  | [n; h; w; c] =>
      let image_list :=
        map (fun i => firstn (h * w * c)%nat (skipn (i * (h * w * c))%nat (data image_stack)))
            (seq 0 n) in
      match image_list with
      | [] => inl ConcatenateValueError
      | _ :: _ =>
          inr {| shape := [h; n * w; c]%nat;
                 data := flat_map
                           (fun r =>
                              flat_map (fun img => firstn (w * c)%nat (skipn (r * (w * c))%nat img))
                                       image_list)
                           (seq 0 h) |}
      end
  | _ => inl AssertionError
  end.

(** [np.squeeze]: the axes of length 1 are dropped, the elements stay. *)
Definition squeeze (a : ndarray) : ndarray :=
  {| shape := filter (fun d => negb (d =? 1)%nat) (shape a); data := data a |}.

(** A stack of 2 images of 2 rows, 3 columns and 2 channels, numbered in
    memory order. *)
Definition toy_stack : ndarray :=
  {| shape := [2; 2; 3; 2]%nat; data := map Z.of_nat (seq 0 24) |}.

(** ** Counting the steps of a log *)

Definition is_discriminator_step {E} (e : event E) : bool :=
  match e with
  | TrainDiscriminator _ _ _ => true
  | _ => false
  end.

Definition is_generator_step {E} (e : event E) : bool :=
  match e with
  | TrainGenerator _ _ => true
  | _ => false
  end.

Definition count {E} (f : event E -> bool) (l : list (event E)) : nat :=
  length (filter f l).

(** The keys [--optimizer] can take without a [KeyError]. *)
Definition known_optimizers : list string :=
  ["SGD"; "optimAdam"; "extraOptimAdam"; "optimAdagrad"; "OFRL"; "OMDA"]%string.



(** ** File names *)

(** The files a complete run writes into [dir]: those of the checkpoints
    of the loop indices 1, 3, ..., 49. *)
Definition files_of_run (dir : string) : list string :=
  flat_map (checkpoint_files dir) (map (fun k => 2 * k + 1)%Z (Py.range 25)).

(** Arguments of the small world that ask to reload the weights saved
    under the index [e] in the directory of the run itself. *)
Definition toy_retrain_args (e : Z) : Args := {|
  output_dir := "out";
  optimizer_lr := 1 # 10000;
  momentum := 0;
  nesterov := false;
  optimizer := "SGD";
  model := std_conv;
  schedule := None;
  gp := 10;
  beta_1 := 1 # 2;
  beta_2 := 9 # 10;
  version := None;
  retrain_dir := Some "out"%string;
  retrain_epoch := e;
  training_ratio := 1
|}.

(** ** The graph in binary32

    The tensors of the Keras graph are [float32].  Where rounding decides
    a property, the losses and the interpolation layer are given a second
    time with the IEEE 754 operations of that format (round to nearest
    even).  The backend adds the elements of a tensor in an order of its
    own; here the sum starts from zero and goes left to right, in memory
    order.  A Python scalar that meets a tensor is converted to
    [float32] first, so the weights and factors below are [float32]
    values. *)

Module K32.

Definition tensor := list (list spec_float).

Definition fadd : spec_float -> spec_float -> spec_float := SFadd F32.prec F32.emax.
Definition fsub : spec_float -> spec_float -> spec_float := SFsub F32.prec F32.emax.
Definition fmul : spec_float -> spec_float -> spec_float := SFmul F32.prec F32.emax.
Definition fdiv : spec_float -> spec_float -> spec_float := SFdiv F32.prec F32.emax.
Definition fsqrt : spec_float -> spec_float := SFsqrt F32.prec F32.emax.

(** [K.square] of a scalar. *)
Definition fsquare (x : spec_float) : spec_float := fmul x x.

Definition zero : spec_float := S754_zero false.
Definition one : spec_float := F32.of_Z 1.


(** The sign bit (NaN is given none). *)
Definition signbit (x : spec_float) : bool :=
  match x with
  | S754_zero s | S754_infinity s | S754_finite s _ _ => s
  | S754_nan => false
  end.



(** [K.sum] of a rank-1 tensor and of a stack of batches, [K.mean],
    [K.square]. *)
Definition sum (v : list spec_float) : spec_float := fold_left fadd v zero.

Definition sum3 (ts : list tensor) : spec_float := sum (concat (concat ts)).

Definition mean (v : list spec_float) : spec_float :=
  fdiv (sum v) (F32.of_Z (Z.of_nat (length v))).

Definition square3 (ts : list tensor) : list tensor := map (map (map fsquare)) ts.

(** Elementwise binary operations, with numpy broadcasting on the batch
    axis. *)
Fixpoint zip_with (f : spec_float -> spec_float -> spec_float)
    (a b : list spec_float) : list spec_float :=
  match a, b with
  | x :: a', y :: b' => f x y :: zip_with f a' b'
  | _, _ => []
  end.

Definition broadcast2 (f : spec_float -> spec_float -> spec_float)
    (a b : list spec_float) : option (list spec_float) :=
  if Nat.eqb (length a) (length b) then Some (zip_with f a b)
  else match a, b with
       | [x], _ => Some (map (f x) b)
       | _, [y] => Some (map (fun x => f x y) a)
       | _, _ => None
       end.

Definition mul := broadcast2 fmul.
Definition add := broadcast2 fadd.

(** A scalar times a tensor, and unary minus. *)
Definition scale (a : spec_float) (v : list spec_float) : list spec_float :=
  map (fmul a) v.
Definition neg (v : list spec_float) : list spec_float := map SFopp v.

End K32.

Module Float32.

(** Lines 44-53. *)
Definition wasserstein_loss (y_true y_pred : list spec_float) : option spec_float :=
  match K32.mul y_true y_pred with
  | Some prod => Some (K32.mean prod)
  | None => None
  end.

Section GradientPenalty.

Variable K_gradients : (K32.tensor -> spec_float) -> K32.tensor -> list K32.tensor.

(** Lines 56-72. *)
Definition gradient_penalty_loss (y_true : list spec_float)
    (y_pred : K32.tensor -> list spec_float) (averaged_samples : K32.tensor)
    (gradient_penalty_weight : spec_float) : spec_float :=
  let gradients := K_gradients (fun x => K32.sum (y_pred x)) averaged_samples in
  let gradient_l2_norm := K32.fsqrt (K32.sum3 (K32.square3 gradients)) in
  let gradient_penalty :=
    K32.fmul gradient_penalty_weight
             (K32.fsquare (K32.fsub K32.one gradient_l2_norm)) in
  gradient_penalty.

(** All the components of the gradient of the summed prediction with
    respect to the averaged samples, in memory order. *)
Definition gradient_components (y_pred : K32.tensor -> list spec_float)
    (averaged_samples : K32.tensor) : list spec_float :=
  concat (concat (K_gradients (fun x => K32.sum (y_pred x)) averaged_samples)).

End GradientPenalty.

(** The L2 norm of a vector, as the backend computes it. *)
Definition l2_norm (v : list spec_float) : spec_float :=
  K32.fsqrt (K32.sum (map K32.fsquare v)).

Section RandomWeightedAverage.

Variable Gen : Type.
Variable K_random_uniform : Z -> Gen -> list spec_float * Gen.

(** [0 <= w < 1], as floats compare. *)
Definition in_unit_interval (w : spec_float) : Prop :=
  SFleb K32.zero w = true /\ SFltb w K32.one = true.

Definition uniform_contract : Prop :=
  forall n g,
    length (fst (K_random_uniform n g)) = Z.to_nat n /\
    Forall in_unit_interval (fst (K_random_uniform n g)).

Fixpoint scale_rows (ws : list spec_float) (t : K32.tensor) : K32.tensor :=
  match ws, t with
  | w :: ws', s :: t' => K32.scale w s :: scale_rows ws' t'
  | _, _ => []
  end.

Definition weighted (ws : list spec_float) (t : K32.tensor) : option K32.tensor :=
  if Nat.eqb (length ws) (length t) then Some (scale_rows ws t)
  else match ws, t with
       | [w], _ => Some (map (K32.scale w) t)
       | _, [s] => Some (map (fun w => K32.scale w s) ws)
       | _, _ => None
       end.

Fixpoint add_rows (a b : K32.tensor) : option K32.tensor :=
  match a, b with
  | [], [] => Some []
  | x :: a', y :: b' =>
      match K32.add x y, add_rows a' b' with
      | Some z, Some c => Some (z :: c)
      | _, _ => None
      end
  | _, _ => None
  end.

(** Lines 207-211. *)
Definition _merge_function (inputs : list K32.tensor) (g : Gen)
  : option K32.tensor * Gen :=
  let '(weights, g') := K_random_uniform BATCH_SIZE g in
  (match nth_error inputs 0, nth_error inputs 1 with
   | Some inputs0, Some inputs1 =>
       match weighted weights inputs0,
             weighted (map (K32.fsub K32.one) weights) inputs1 with
       | Some a, Some b => add_rows a b
       | _, _ => None
       end
   | _, _ => None
   end, g').

End RandomWeightedAverage.

End Float32.

(** The floats nearest to 0.1 and to 0.2; a generator that always draws
    the weight 3/16; a batch of [BATCH_SIZE] samples of one component 0.1;
    a backend whose gradient is a given vector. *)
Definition f32_tenth : spec_float := F32.of_scaled 13421773 (-27).
Definition f32_fifth : spec_float := F32.of_scaled 13421773 (-26).

Definition toy_uniform32 (n : Z) (g : nat) : list spec_float * nat :=
  (repeat (F32.of_scaled 3 (-4)) (Z.to_nat n), S g).

Definition toy_tenths : K32.tensor := repeat [f32_tenth] (Z.to_nat BATCH_SIZE).

Definition const_gradient32 (g : list spec_float)
    (_ : K32.tensor -> spec_float) (_ : K32.tensor) : list K32.tensor := [[g]].

(** * Properties *)

(** ** Wasserstein loss *)

Section WassersteinFacts.

Local Open Scope R_scope.

Lemma zip_with_length (f : R -> R -> R) (a b : list R) :
  length a = length b -> length (K.zip_with f a b) = length a.
Proof.
  revert b; induction a as [|x a IH]; intros [|y b] H; simpl in *;
    try discriminate; auto.
Qed.

Lemma broadcast2_same_shape (f : R -> R -> R) (a b : list R) :
  length a = length b -> K.broadcast2 f a b = Some (K.zip_with f a b).
Proof.
  intros H. unfold K.broadcast2. rewrite H, Nat.eqb_refl. reflexivity.
Qed.

Lemma sum_product_linear (a b : R) (y p q : list R) :
  length p = length y -> length q = length y ->
  K.sum (K.zip_with Rmult y (K.zip_with Rplus (K.scale a p) (K.scale b q))) =
  a * K.sum (K.zip_with Rmult y p) + b * K.sum (K.zip_with Rmult y q).
Proof.
  revert p q; induction y as [|v y IH]; intros [|u p] [|w q] Hp Hq;
    simpl in *; try discriminate; [ring|].
  injection Hp as Hp. injection Hq as Hq.
  change (map (Rmult a) p) with (K.scale a p).
  change (map (Rmult b) q) with (K.scale b q).
  rewrite (IH p q Hp Hq). ring.
Qed.

Lemma sum_product_neg (y : list R) :
  K.sum (K.zip_with Rmult y (K.neg y)) = - K.sum (K.zip_with Rmult y y).
Proof.
  induction y as [|v y IH]; simpl; [ring|].
  change (map Ropp y) with (K.neg y). rewrite IH. ring.
Qed.

Lemma wasserstein_loss_same_shape (y p : list R) :
  length p = length y ->
  wasserstein_loss y p = Some (K.sum (K.zip_with Rmult y p) / INR (length y)).
Proof.
  intros H. unfold wasserstein_loss, K.mul.
  rewrite broadcast2_same_shape by auto.
  unfold K.mean. rewrite zip_with_length by auto. reflexivity.
Qed.

(** The formula in exact arithmetic.  On non-empty batches of one shape,
    the mean of the elementwise product is linear in [y_pred]: the loss of
    [a*p + b*q] is [a] times the loss of [p] plus [b] times the loss of
    [q]; and the loss of [y] against [-y] is the opposite of the loss of
    [y] against itself.  (The [float32] values the backend computes keep
    the second property and not the first; see the part on binary32.) *)
Theorem wasserstein_loss_mean_linear (y p q : list R) (a b : R) :
  y <> [] -> length p = length y -> length q = length y ->
  wasserstein_loss y p = Some (K.sum (K.zip_with Rmult y p) / INR (length y)) /\
  (exists lp lq r,
      wasserstein_loss y p = Some lp /\
      wasserstein_loss y q = Some lq /\
      K.add (K.scale a p) (K.scale b q) = Some r /\
      wasserstein_loss y r = Some (a * lp + b * lq)) /\
  (exists l,
      wasserstein_loss y y = Some l /\
      wasserstein_loss y (K.neg y) = Some (- l)).
Proof.
  intros _ Hp Hq. split; [|split].
  - apply wasserstein_loss_same_shape; assumption.
  - exists (K.sum (K.zip_with Rmult y p) / INR (length y)),
           (K.sum (K.zip_with Rmult y q) / INR (length y)),
           (K.zip_with Rplus (K.scale a p) (K.scale b q)).
    assert (Hs : length (K.scale a p) = length (K.scale b q))
      by (unfold K.scale; rewrite !length_map; congruence).
    repeat split.
    + apply wasserstein_loss_same_shape; assumption.
    + apply wasserstein_loss_same_shape; assumption.
    + unfold K.add. apply broadcast2_same_shape; assumption.
    + rewrite wasserstein_loss_same_shape.
      * rewrite sum_product_linear by assumption. f_equal. unfold Rdiv. ring.
      * rewrite zip_with_length by assumption.
        unfold K.scale. rewrite length_map. assumption.
  - exists (K.sum (K.zip_with Rmult y y) / INR (length y)). split.
    + apply wasserstein_loss_same_shape; reflexivity.
    + rewrite wasserstein_loss_same_shape
        by (unfold K.neg; apply length_map).
      rewrite sum_product_neg. f_equal. unfold Rdiv. ring.
Qed.

Lemma wasserstein_loss_mean_linear_witness :
  [1; -1] <> [] /\
  length [2; 3] = length [1; -1] /\ length [0; 1] = length [1; -1] /\
  exists l, wasserstein_loss [1; -1] [1; -1] = Some l /\
            wasserstein_loss [1; -1] (K.neg [1; -1]) = Some (- l).
Proof.
  split; [discriminate|]. split; [reflexivity|]. split; [reflexivity|].
  apply (@wasserstein_loss_mean_linear [1; -1] [2; 3] [0; 1] 2 3);
    [discriminate|reflexivity|reflexivity].
Defined.

End WassersteinFacts.

(** ** Gradient penalty *)

Section GradientPenaltyFacts.

Local Open Scope R_scope.

Lemma sum_app (u v : list R) : K.sum (u ++ v) = K.sum u + K.sum v.
Proof. induction u as [|x u IH]; simpl; [|rewrite IH]; ring. Qed.

Lemma sum_squares_row (s : list R) :
  K.sum (K.square s) = K.sum (map (fun x => x * x) s).
Proof. reflexivity. Qed.

Lemma sum2_squares_batch (g : K.tensor) :
  K.sum2 (map K.square g) = K.sum (map (fun x => x * x) (concat g)).
Proof.
  unfold K.sum2. induction g as [|s g IH]; simpl; [reflexivity|].
  rewrite map_app, sum_app, IH. reflexivity.
Qed.

Lemma sum3_squares_stack (gs : list K.tensor) :
  K.sum3 (K.square3 gs) = K.sum (map (fun x => x * x) (concat (concat gs))).
Proof.
  unfold K.sum3, K.square3. induction gs as [|g gs IH]; simpl; [reflexivity|].
  rewrite concat_app, map_app, sum_app, IH, sum2_squares_batch. reflexivity.
Qed.

Lemma frobenius_norm_by_sample (g : K.tensor) :
  frobenius_norm g =
  sqrt (K.sum (map (fun s => K.sum (map (fun x => x * x) s)) g)).
Proof.
  unfold frobenius_norm, l2_norm. f_equal.
  induction g as [|s g IH]; simpl; [reflexivity|].
  rewrite map_app, sum_app, IH. reflexivity.
Qed.

Lemma gradient_penalty_loss_batch K_gradients y_true y_pred avg w :
  gradient_penalty_loss K_gradients y_true y_pred avg w =
  w * Rsqr (1 - frobenius_norm (batch_gradient K_gradients y_pred avg)).
Proof.
  unfold gradient_penalty_loss, K.sqrt, frobenius_norm, l2_norm, batch_gradient.
  rewrite sum3_squares_stack. reflexivity.
Qed.

Lemma sqrt_2_neq_1 : sqrt 2 <> 1.
Proof.
  intros H. assert (H2 : sqrt 2 * sqrt 2 = 2) by (apply sqrt_sqrt; lra).
  rewrite H in H2. lra.
Qed.

Lemma penalty_zero_iff (w n : R) : w <> 0 -> (w * Rsqr (1 - n) = 0 <-> n = 1).
Proof.
  intros Hw. unfold Rsqr. split.
  - intros H. apply Rmult_integral in H. destruct H as [H|H]; [contradiction|].
    apply Rmult_integral in H. destruct H; lra.
  - intros ->. ring.
Qed.

(** The formula in exact arithmetic: [weight * (1 - norm)^2], where
    [norm] is the L2 norm of the gradient of the summed prediction with
    respect to the averaged samples; it does not depend on [y_true]; and,
    for a weight other than zero, it is zero exactly when that norm equals
    1.  (Of the [float32] values the backend computes only one direction
    of the last part holds; see the part on binary32.) *)
Theorem gradient_penalty_loss_value K_gradients
    (y_true y_true' : list R) (y_pred : K.tensor -> list R)
    (averaged_samples : K.tensor) (weight : R) :
  let norm := l2_norm (concat (batch_gradient K_gradients y_pred averaged_samples)) in
  gradient_penalty_loss K_gradients y_true y_pred averaged_samples weight =
    weight * (1 - norm) ^ 2 /\
  gradient_penalty_loss K_gradients y_true y_pred averaged_samples weight =
    gradient_penalty_loss K_gradients y_true' y_pred averaged_samples weight /\
  (weight <> 0 ->
   (gradient_penalty_loss K_gradients y_true y_pred averaged_samples weight = 0
    <-> norm = 1)).
Proof.
  intros norm. split; [|split].
  - rewrite gradient_penalty_loss_batch. unfold Rsqr. fold norm.
    unfold frobenius_norm. fold norm. ring.
  - reflexivity.
  - intros Hw. rewrite gradient_penalty_loss_batch.
    apply penalty_zero_iff. assumption.
Qed.

Lemma gradient_penalty_loss_value_witness :
  10 <> 0 /\
  (gradient_penalty_loss ones_gradient [] (fun x => map K.sum x) [[0; 0]] 10 = 0
   <-> l2_norm (concat (batch_gradient ones_gradient (fun x => map K.sum x)
                          [[0; 0]])) = 1).
Proof.
  assert (H : 10 <> 0) by lra. split; [exact H|].
  exact (proj2 (proj2 (gradient_penalty_loss_value ones_gradient [] []
                         (fun x => map K.sum x) [[0; 0]] 10)) H).
Defined.

(** In exact arithmetic too the formula is zero for the weight zero
    whatever the norm: here the loss is zero although the gradient norm is
    [sqrt 2].  The discriminator sums the components of a sample, so the
    gradient of the summed prediction is 1 everywhere. *)
Lemma gradient_penalty_zero_weight_counterexample :
  ~ (forall K_gradients y_true y_pred averaged_samples weight,
        gradient_penalty_loss K_gradients y_true y_pred averaged_samples weight = 0
        <-> l2_norm (concat (batch_gradient K_gradients y_pred averaged_samples)) = 1).
Proof.
  intros H.
  specialize (H ones_gradient [] (fun x => map K.sum x) [[0; 0]] 0).
  destruct H as [H _].
  assert (Hn : l2_norm (concat (batch_gradient ones_gradient
                                   (fun x => map K.sum x) [[0; 0]])) = 1).
  { apply H. unfold gradient_penalty_loss. ring. }
  unfold l2_norm, batch_gradient, ones_gradient in Hn. simpl in Hn.
  replace (1 * 1 + (1 * 1 + 0)) with 2 in Hn by ring.
  exact (sqrt_2_neq_1 Hn).
Qed.

(** C9. The penalty is one scalar for the whole batch: the norm it uses is
    the square root of the sum, over all samples and all components, of the
    squared gradient (the Frobenius norm of the batch gradient); it is
    neither the mean nor the sum of per-sample penalties. *)
Theorem gradient_penalty_uses_batch_norm :
  (forall K_gradients y_true y_pred averaged_samples weight,
      gradient_penalty_loss K_gradients y_true y_pred averaged_samples weight =
      weight * Rsqr (1 - sqrt (K.sum (map (fun s => K.sum (map (fun x => x * x) s))
                                       (batch_gradient K_gradients y_pred
                                          averaged_samples))))) /\
  (exists K_gradients y_true y_pred averaged_samples weight,
      let g := batch_gradient K_gradients y_pred averaged_samples in
      let loss := gradient_penalty_loss K_gradients y_true y_pred
                    averaged_samples weight in
      per_sample_mean_penalty weight g = 0 /\
      per_sample_sum_penalty weight g = 0 /\
      loss <> 0).
Proof.
  split.
  - intros. rewrite gradient_penalty_loss_batch, frobenius_norm_by_sample.
    reflexivity.
  - exists ones_gradient, [], (fun x => map K.sum x), [[0]; [0]], 1.
    assert (Hrow : l2_norm [1] = 1).
    { unfold l2_norm. simpl. replace (1 * 1 + 0) with 1 by ring. apply sqrt_1. }
    cbv zeta. split; [|split].
    + unfold per_sample_mean_penalty, per_sample_penalties, batch_gradient,
        ones_gradient, K.mean. simpl. rewrite Hrow. unfold Rsqr. field.
    + unfold per_sample_sum_penalty, per_sample_penalties, batch_gradient,
        ones_gradient. simpl. rewrite Hrow. unfold Rsqr. ring.
    + rewrite gradient_penalty_loss_batch.
      intros H. apply penalty_zero_iff in H; [|lra].
      unfold frobenius_norm, l2_norm, batch_gradient, ones_gradient in H.
      simpl in H. replace (1 * 1 + (1 * 1 + 0)) with 2 in H by ring.
      exact (sqrt_2_neq_1 H).
Qed.

End GradientPenaltyFacts.

(** ** Interpolated samples *)

Section RandomWeightedAverageFacts.

Local Open Scope R_scope.

Variable Gen : Type.
Variable K_random_uniform : Z -> Gen -> list R * Gen.

Lemma convex_between (w r g : R) :
  0 <= w < 1 -> Rmin r g <= w * r + (1 - w) * g <= Rmax r g.
Proof.
  intros [H0 H1]. unfold Rmin, Rmax. destruct (Rle_dec r g); split; nra.
Qed.

Lemma mixed_row_component (w : R) (r_s g_s : list R) :
  length r_s = length g_s ->
  forall c r g o,
    nth_error r_s c = Some r -> nth_error g_s c = Some g ->
    nth_error (K.zip_with Rplus (K.scale w r_s) (K.scale (1 - w) g_s)) c = Some o ->
    o = w * r + (1 - w) * g.
Proof.
  revert g_s; induction r_s as [|x r_s IH]; intros [|y g_s] Hlen c r g o;
    simpl in *; try discriminate.
  - destruct c; discriminate.
  - injection Hlen as Hlen. destruct c as [|c]; simpl.
    + intros [= <-] [= <-] [= <-]. reflexivity.
    + apply (IH g_s Hlen c).
Qed.

Lemma add_rows_scaled (ws : list R) (real gen : K.tensor) :
  length ws = length real ->
  Forall2 (fun r s => length r = length s) real gen ->
  exists out,
    add_rows (scale_rows ws real)
             (scale_rows (map (fun w => 1 - w) ws) gen) = Some out /\
    length out = length real /\
    forall i w r_s g_s o_s,
      nth_error ws i = Some w -> nth_error real i = Some r_s ->
      nth_error gen i = Some g_s -> nth_error out i = Some o_s ->
      length o_s = length r_s /\
      forall c r g o,
        nth_error r_s c = Some r -> nth_error g_s c = Some g ->
        nth_error o_s c = Some o -> o = w * r + (1 - w) * g.
Proof.
  intros Hlen Hshape. revert ws Hlen.
  induction Hshape as [|r_s g_s real gen Hrow Hrest IH]; intros [|w ws] Hlen;
    simpl in *; try discriminate.
  - exists []. split; [reflexivity|]. split; [reflexivity|].
    intros [|i]; discriminate.
  - injection Hlen as Hlen. destruct (IH ws Hlen) as (out & Hadd & Hout & Hnth).
    unfold K.add. rewrite broadcast2_same_shape
      by (unfold K.scale; rewrite !length_map; assumption).
    rewrite Hadd.
    exists (K.zip_with Rplus (K.scale w r_s) (K.scale (1 - w) g_s) :: out).
    split; [reflexivity|]. split; [simpl; congruence|].
    intros [|i] w0 r0 g0 o0; simpl.
    + intros [= <-] [= <-] [= <-] [= <-]. split.
      * rewrite zip_with_length; unfold K.scale; rewrite !length_map; auto.
      * apply mixed_row_component; assumption.
    + apply Hnth.
Qed.

(** The interpolation in exact arithmetic.  With the backend's uniform
    generator keeping its contract, merging a batch of real samples with a
    batch of generated samples of the same shape succeeds; every pair of
    samples gets one weight [w], with [0 <= w < 1], used for all of its
    components; and every component of the output is
    [w * real + (1 - w) * generated], which lies between the two
    components, bounds included.  (The [float32] values the backend
    computes can leave that interval by one unit in the last place; see
    the part on binary32.) *)
Theorem random_weighted_average_between (real gen : K.tensor) (g : Gen) :
  uniform_contract K_random_uniform ->
  length real = Z.to_nat BATCH_SIZE ->
  length gen = Z.to_nat BATCH_SIZE ->
  Forall2 (fun r s => length r = length s) real gen ->
  exists weights out g',
    K_random_uniform BATCH_SIZE g = (weights, g') /\
    _merge_function K_random_uniform [real; gen] g = (Some out, g') /\
    length weights = Z.to_nat BATCH_SIZE /\
    length out = Z.to_nat BATCH_SIZE /\
    forall i r_s g_s o_s,
      nth_error real i = Some r_s -> nth_error gen i = Some g_s ->
      nth_error out i = Some o_s ->
      exists w,
        nth_error weights i = Some w /\ 0 <= w < 1 /\
        length o_s = length r_s /\
        forall c r x o,
          nth_error r_s c = Some r -> nth_error g_s c = Some x ->
          nth_error o_s c = Some o ->
          o = w * r + (1 - w) * x /\ Rmin r x <= o <= Rmax r x.
Proof.
  intros Hu Hreal Hgen Hshape.
  destruct (Hu BATCH_SIZE g) as [Hlen Hrange].
  destruct (K_random_uniform BATCH_SIZE g) as [weights g'] eqn:Hdraw.
  cbn [fst] in Hlen, Hrange.
  assert (Hw : length weights = length real) by congruence.
  destruct (add_rows_scaled weights Hw Hshape) as (out & Hadd & Hout & Hnth).
  exists weights, out, g'. split; [reflexivity|]. split.
  { unfold _merge_function. rewrite Hdraw. simpl. unfold weighted.
    rewrite length_map, Hw, Nat.eqb_refl.
    rewrite (Forall2_length Hshape), Nat.eqb_refl.
    rewrite Hadd. reflexivity. }
  split; [assumption|]. split; [congruence|].
  intros i r_s g_s o_s Hr Hg Ho.
  destruct (nth_error weights i) as [w|] eqn:Hwi.
  - exists w. split; [reflexivity|].
    assert (Hin : 0 <= w < 1).
    { rewrite Forall_forall in Hrange. apply Hrange.
      eapply nth_error_In; eassumption. }
    split; [assumption|].
    destruct (Hnth i w r_s g_s o_s Hwi Hr Hg Ho) as [Hl Hc].
    split; [assumption|].
    intros c r x o Hrc Hxc Hoc.
    pose proof (Hc c r x o Hrc Hxc Hoc) as ->.
    split; [reflexivity|]. apply convex_between; assumption.
  - apply nth_error_None in Hwi.
    assert (i < length real)%nat by (apply nth_error_Some; congruence).
    lia.
Qed.

End RandomWeightedAverageFacts.

Lemma toy_uniform_contract : uniform_contract toy_uniform.
Proof.
  intros n g. unfold toy_uniform. cbn [fst]. split.
  - rewrite length_map, length_seq. reflexivity.
  - apply Forall_forall. intros w Hw. apply in_map_iff in Hw.
    destruct Hw as (i & <- & _). destruct (Nat.even i); lra.
Qed.

Lemma toy_batches_same_shape :
  Forall2 (fun r s : list R => length r = length s) toy_real toy_generated.
Proof.
  unfold toy_real, toy_generated.
  induction (Z.to_nat BATCH_SIZE); simpl; constructor; auto.
Qed.

Lemma random_weighted_average_between_witness :
  uniform_contract toy_uniform /\
  length toy_real = Z.to_nat BATCH_SIZE /\
  length toy_generated = Z.to_nat BATCH_SIZE /\
  Forall2 (fun r s : list R => length r = length s) toy_real toy_generated /\
  exists out g',
    _merge_function toy_uniform [toy_real; toy_generated] 0%nat = (Some out, g') /\
    length out = Z.to_nat BATCH_SIZE.
Proof.
  assert (Hr : length toy_real = Z.to_nat BATCH_SIZE) by apply repeat_length.
  assert (Hg : length toy_generated = Z.to_nat BATCH_SIZE) by apply repeat_length.
  repeat (split; [first [exact toy_uniform_contract | exact Hr | exact Hg
                        | exact toy_batches_same_shape]|]).
  destruct (random_weighted_average_between 0%nat toy_uniform_contract
              Hr Hg toy_batches_same_shape)
    as (weights & out & g' & _ & Hm & _ & Hl & _).
  exists out, g'. split; assumption.
Defined.

(** ** Pixel normalisation and its inverse *)

Section PixelFacts.

Local Open Scope Q_scope.










End PixelFacts.

(** ** The training loop *)

Section RunFacts.

Variable E : Externals.

Lemma rng_after_add (n m : nat) (g : Rng E) :
  rng_after E (n + m) g = rng_after E m (rng_after E n g).
Proof. revert g; induction n as [|n IH]; intros g; simpl; auto. Qed.

Lemma nth_noise_after (n k : nat) (g : Rng E) :
  nth_noise E (rng_after E n g) k = nth_noise E g (n + k).
Proof. unfold nth_noise. rewrite rng_after_add. reflexivity. Qed.

Lemma backend_after_app (ev1 ev2 : list (event E)) (b : Backend E) :
  backend_after (ev1 ++ ev2) b = backend_after ev2 (backend_after ev1 b).
Proof. apply fold_left_app. Qed.

Lemma runs_ret (s : state E) : runs (ret tt) s 0 [].
Proof.
  exists s. repeat split. simpl. rewrite app_nil_r. reflexivity.
Qed.

Lemma runs_seq (c k : M E unit) (s : state E) n1 n2 ev1 ev2 :
  runs c s n1 ev1 ->
  (forall s1, rng s1 = rng_after E n1 (rng s) -> X_train s1 = X_train s ->
              runs k s1 n2 ev2) ->
  runs (bind c (fun _ => k)) s (n1 + n2) (ev1 ++ ev2).
Proof.
  intros (s1 & Hc & Hg & HX & Hl & Hb) Hk.
  destruct (Hk s1 Hg HX) as (s2 & Hk2 & Hg2 & HX2 & Hl2 & Hb2).
  exists s2. split; [unfold bind; rewrite Hc; assumption|].
  split; [rewrite rng_after_add; congruence|].
  split; [congruence|].
  split; [rewrite Hl2, Hl, app_assoc; reflexivity|].
  rewrite backend_after_app, Hb2, Hb. reflexivity.
Qed.

Lemma flat_map_ext_seq {A} (f g : nat -> list A) a n :
  (forall k, (a <= k < a + n)%nat -> f k = g k) ->
  flat_map f (seq a n) = flat_map g (seq a n).
Proof.
  intros H. rewrite !flat_map_concat_map. f_equal.
  apply map_ext_in. intros k Hk. apply in_seq in Hk. auto.
Qed.

(** A loop over [range]: iteration [k] starts from the generator state left
    by the iterations before it. *)
Lemma runs_for_range (body : Z -> M E unit) (adv : nat)
    (ev : nat -> Rng E -> list (event E)) :
  (forall k s, runs (body (Z.of_nat k)) s adv (ev k (rng s))) ->
  forall n a s,
    runs (for_each (map Z.of_nat (seq a n)) body) s (n * adv)
         (flat_map (fun k => ev k (rng_after E ((k - a) * adv) (rng s)))
                   (seq a n)).
Proof.
  intros Hbody. induction n as [|n IH]; intros a s.
  - apply runs_ret.
  - change (seq a (S n)) with (a :: seq (S a) n).
    cbn [map for_each flat_map]. change (S n * adv)%nat with (adv + n * adv)%nat.
    apply runs_seq.
    + rewrite Nat.sub_diag. apply Hbody.
    + intros s1 Hg _. rewrite (flat_map_ext_seq
        (fun k => ev k (rng_after E ((k - a) * adv) (rng s)))
        (fun k => ev k (rng_after E ((k - S a) * adv) (rng s1)))).
      * apply IH.
      * intros k Hk. rewrite Hg, <- rng_after_add. do 2 f_equal. nia.
Qed.

End RunFacts.

Section SliceFacts.

Lemma slice_in_bounds {A} (l : list A) (lo hi : nat) :
  (lo <= hi <= length l)%nat ->
  Py.slice l (Z.of_nat lo) (Z.of_nat hi) = firstn (hi - lo) (skipn lo l).
Proof.
  intros H. unfold Py.slice, Py.clamp.
  destruct (Z.ltb_spec (Z.of_nat lo) 0); [lia|].
  destruct (Z.ltb_spec (Z.of_nat hi) 0); [lia|].
  rewrite !Z.min_l by lia. rewrite <- Nat2Z.inj_sub by lia.
  rewrite !Nat2Z.id. reflexivity.
Qed.

Lemma slice_length_in_bounds {A} (l : list A) (lo hi : nat) :
  (lo <= hi <= length l)%nat ->
  length (Py.slice l (Z.of_nat lo) (Z.of_nat hi)) = (hi - lo)%nat.
Proof.
  intros H. rewrite slice_in_bounds by assumption.
  rewrite length_firstn, length_skipn. lia.
Qed.

Lemma slice_incl {A} (l : list A) (lo hi : Z) : incl (Py.slice l lo hi) l.
Proof.
  unfold Py.slice. intros x Hx.
  set (n := Z.to_nat (Py.clamp (Z.of_nat (length l)) lo)) in *.
  set (m := Z.to_nat (Py.clamp (Z.of_nat (length l)) hi
                      - Py.clamp (Z.of_nat (length l)) lo)) in *.
  rewrite <- (firstn_skipn n l). apply in_or_app. right.
  rewrite <- (firstn_skipn m (skipn n l)). apply in_or_app. left. exact Hx.
Qed.

(** The [j]-th batch of the [i]-th group is the chunk [i * ratio + j]. *)
Lemma slice_of_group (X : list Sample) (ratio i j : nat) :
  ((i + 1) * (Z.to_nat BATCH_SIZE * ratio) <= length X)%nat ->
  (j < ratio)%nat ->
  Py.slice (Py.slice X (Z.of_nat i * (BATCH_SIZE * Z.of_nat ratio))
                       ((Z.of_nat i + 1) * (BATCH_SIZE * Z.of_nat ratio)))
           (Z.of_nat j * BATCH_SIZE) ((Z.of_nat j + 1) * BATCH_SIZE)
  = chunk X (i * ratio + j).
Proof.
  intros Hi Hj. unfold chunk.
  set (b := Z.to_nat BATCH_SIZE) in *.
  assert (Hb : BATCH_SIZE = Z.of_nat b) by reflexivity.
  assert (Hb0 : (0 < b)%nat) by (unfold b, BATCH_SIZE; lia).
  rewrite Hb.
  replace (Z.of_nat i * (Z.of_nat b * Z.of_nat ratio))%Z
    with (Z.of_nat (i * (b * ratio))) by lia.
  replace ((Z.of_nat i + 1) * (Z.of_nat b * Z.of_nat ratio))%Z
    with (Z.of_nat ((i + 1) * (b * ratio))) by lia.
  replace (Z.of_nat j * Z.of_nat b)%Z with (Z.of_nat (j * b)) by lia.
  replace ((Z.of_nat j + 1) * Z.of_nat b)%Z with (Z.of_nat ((j + 1) * b)) by lia.
  assert (Hg : length (Py.slice X (Z.of_nat (i * (b * ratio)))
                         (Z.of_nat ((i + 1) * (b * ratio)))) = (b * ratio)%nat).
  { rewrite slice_length_in_bounds by lia. lia. }
  rewrite (slice_in_bounds (Py.slice _ _ _)) by (rewrite Hg; nia).
  rewrite slice_in_bounds by lia.
  rewrite skipn_firstn_comm, firstn_firstn, skipn_skipn.
  replace (Nat.min ((j + 1) * b - j * b)
                   ((i + 1) * (b * ratio) - i * (b * ratio) - j * b)) with b by nia.
  f_equal. f_equal. nia.
Qed.



End SliceFacts.

Section TrainingFacts.

Variable E : Externals.
Variable args : Args.

Let ratio : nat := Z.to_nat (training_ratio args).

Lemma runs_eq (c : M E unit) (s : state E) n n' ev ev' :
  runs c s n ev -> n = n' -> ev = ev' -> runs c s n' ev'.
Proof. intros H -> ->. exact H. Qed.

Lemma flat_map_singleton {A B} (f : A -> B) (l : list A) :
  flat_map (fun x => [f x]) l = map f l.
Proof. induction l as [|x l IH]; simpl; [|rewrite IH]; reflexivity. Qed.

Lemma runs_discriminator_updates (G : list Sample) (s : state E) :
  runs (discriminator_updates args G) s ratio
       (map (fun j =>
               TrainDiscriminator
                 (Py.slice G (Z.of_nat j * BATCH_SIZE) ((Z.of_nat j + 1) * BATCH_SIZE))
                 (astype_float32 E (nth_noise E (rng s) j))
                 [positive_y; negative_y; dummy_y])
            (seq 0 ratio)).
Proof.
  unfold discriminator_updates, Py.range, TRAINING_RATIO. fold ratio.
  eapply runs_eq.
  - apply (@runs_for_range E _ 1%nat
             (fun k g =>
                [TrainDiscriminator
                   (Py.slice G (Z.of_nat k * BATCH_SIZE)
                      ((Z.of_nat k + 1) * BATCH_SIZE))
                   (astype_float32 E (nth_noise E g 0))
                   [positive_y; negative_y; dummy_y]])).
    intros k s0. unfold runs, bind, rand, with_backend, emit, nth_noise, draw.
    destruct (np_random_rand E BATCH_SIZE 100 (rng s0)) as [noise g'] eqn:Hd.
    cbn [fst snd rng X_train log backend rng_after].
    eexists. split; [reflexivity|].
    cbn [rng X_train log backend]. unfold draw. rewrite Hd.
    repeat split.
  - lia.
  - rewrite flat_map_singleton. apply map_ext. intros j.
    rewrite nth_noise_after.
    replace ((j - 0) * 1 + 0)%nat with j by lia. reflexivity.
Qed.

Lemma runs_generator_update (s : state E) :
  runs (generator_update (E := E)) s 1
       [TrainGenerator (nth_noise E (rng s) 0) positive_y].
Proof.
  unfold runs, generator_update, bind, rand, with_backend, emit, nth_noise, draw.
  destruct (np_random_rand E BATCH_SIZE 100 (rng s)) as [noise g'] eqn:Hd.
  cbn [fst snd rng X_train log backend rng_after].
  eexists. split; [reflexivity|].
  cbn [rng X_train log backend]. unfold draw. rewrite Hd.
  repeat split.
Qed.

Lemma groups_per_epoch_floordiv (X : list Sample) :
  (0 < training_ratio args)%Z ->
  Z.to_nat (Z.of_nat (length X) / (BATCH_SIZE * training_ratio args)) =
  groups_per_epoch X ratio.
Proof.
  intros H. unfold groups_per_epoch, ratio.
  rewrite Z2Nat.inj_div by (unfold BATCH_SIZE; lia).
  rewrite Nat2Z.id, Z2Nat.inj_mul by (unfold BATCH_SIZE; lia).
  reflexivity.
Qed.

Lemma group_in_bounds (X : list Sample) (i : nat) :
  (0 < training_ratio args)%Z ->
  (i < groups_per_epoch X ratio)%nat ->
  ((i + 1) * (Z.to_nat BATCH_SIZE * ratio) <= length X)%nat.
Proof.
  intros H Hi. unfold groups_per_epoch in Hi.
  set (m := (Z.to_nat BATCH_SIZE * ratio)%nat) in *.
  assert (Hm : m <> 0%nat) by (unfold m, ratio, BATCH_SIZE; lia).
  pose proof (Nat.Div0.mul_div_le (length X) m). nia.
Qed.

Lemma runs_ext (c c' : M E unit) (s : state E) n ev :
  c s = c' s -> runs c' s n ev -> runs c s n ev.
Proof. intros H (s' & Hc & Hr). exists s'. rewrite H. auto. Qed.

Lemma runs_train_epoch (s : state E) :
  (0 < training_ratio args)%Z ->
  runs (train_epoch args) s
       (groups_per_epoch (X_train s) ratio * (ratio + 1))
       (expected_epoch_events E (X_train s) ratio (rng s)).
Proof.
  intros Hpos. set (X := X_train s).
  apply runs_ext with
    (c' := for_each (map Z.of_nat (seq 0 (groups_per_epoch X ratio)))
             (fun i =>
                bind (discriminator_updates args
                        (Py.slice X (i * (BATCH_SIZE * training_ratio args))
                           ((i + 1) * (BATCH_SIZE * training_ratio args))))
                     (fun _ => generator_update (E := E)))).
  { unfold train_epoch, TRAINING_RATIO.
    unfold bind at 1, get_X_train. unfold Py.floordiv.
    destruct (Z.eqb_spec (BATCH_SIZE * training_ratio args) 0) as [H0|_];
      [unfold BATCH_SIZE in H0; lia|].
    cbn [lift_exn]. unfold bind at 1, ret.
    unfold Py.range. rewrite groups_per_epoch_floordiv by assumption.
    reflexivity. }
  eapply runs_eq.
  - apply (@runs_for_range E _ (ratio + 1)%nat
             (fun i g =>
                map (fun j =>
                       TrainDiscriminator
                         (Py.slice
                            (Py.slice X
                               (Z.of_nat i * (BATCH_SIZE * training_ratio args))
                               ((Z.of_nat i + 1) * (BATCH_SIZE * training_ratio args)))
                            (Z.of_nat j * BATCH_SIZE) ((Z.of_nat j + 1) * BATCH_SIZE))
                         (astype_float32 E (nth_noise E g j))
                         [positive_y; negative_y; dummy_y])
                    (seq 0 ratio)
                ++ [TrainGenerator (nth_noise E g ratio) positive_y])).
    intros i s0. apply runs_seq.
    + apply runs_discriminator_updates.
    + intros s1 Hg _. eapply runs_eq.
      * apply runs_generator_update.
      * reflexivity.
      * rewrite Hg, nth_noise_after, Nat.add_0_r. reflexivity.
  - reflexivity.
  - unfold expected_epoch_events. apply flat_map_ext_seq.
    intros i Hi. unfold expected_group_events. rewrite Nat.sub_0_r.
    f_equal. apply map_ext_in. intros j Hj. apply in_seq in Hj.
    replace (training_ratio args) with (Z.of_nat ratio)
      by (unfold ratio; lia).
    rewrite slice_of_group; [reflexivity| |lia].
    apply group_in_bounds; [assumption|]. fold X in Hi. lia.
Qed.

(** *** The shape of the expected events *)








(** *** One epoch and the whole loop *)

Lemma expected_events_train_steps (X : list Sample) (g : Rng E) :
  forallb is_train_step (expected_epoch_events E X ratio g) = true.
Proof.
  apply forallb_forall. intros e He. unfold expected_epoch_events in He.
  apply in_flat_map in He. destruct He as (i & _ & He).
  unfold expected_group_events in He. apply in_app_or in He.
  destruct He as [He|[<-|[]]]; [|reflexivity].
  apply in_map_iff in He. destruct He as (j & <- & _). reflexivity.
Qed.

Lemma files_written_app (l1 l2 : list (event E)) :
  files_written (l1 ++ l2) = files_written l1 ++ files_written l2.
Proof.
  induction l1 as [|e l1 IH]; [reflexivity|].
  cbn [app files_written]. destruct (written_file e); rewrite IH; reflexivity.
Qed.

Lemma files_written_train_steps (l : list (event E)) :
  forallb is_train_step l = true -> files_written l = [].
Proof.
  induction l as [|e l IH]; [reflexivity|].
  cbn [forallb files_written]. intros H. apply andb_prop in H.
  destruct H as [He Hl]. destruct e; try discriminate; cbn; auto.
Qed.

Lemma train_epoch_no_group (s : state E) :
  (training_ratio args < 0)%Z -> train_epoch args s = (Ok tt, s).
Proof.
  intros Hneg. unfold train_epoch, TRAINING_RATIO.
  unfold bind at 1, get_X_train. unfold Py.floordiv.
  destruct (Z.eqb_spec (BATCH_SIZE * training_ratio args) 0) as [H0|_];
    [unfold BATCH_SIZE in H0; lia|].
  cbn [lift_exn]. unfold bind at 1, ret. unfold Py.range.
  assert (Hq : (Z.of_nat (length (X_train s))
                / (BATCH_SIZE * training_ratio args) <= 0)%Z).
  { rewrite <- Z.div_opp_opp by (unfold BATCH_SIZE; lia).
    apply Z.div_le_upper_bound; unfold BATCH_SIZE; lia. }
  replace (Z.to_nat _) with 0%nat by lia. reflexivity.
Qed.

Lemma checkpoint_run (epoch : Z) (s : state E) :
  exists s' ckpt,
    checkpoint args epoch s = (Ok tt, s') /\
    X_train s' = X_train s /\
    log s' = log s ++ ckpt /\
    existsb is_train_step ckpt = false /\
    files_written ckpt =
      (if ((epoch + 1) mod 2 =? 0)%Z
       then checkpoint_files (output_dir args) epoch else []) /\
    backend s' = backend s /\
    forall b, backend_after ckpt b = b.
Proof.
  unfold checkpoint. destruct ((epoch + 1) mod 2 =? 0)%Z.
  - unfold generate_images, bind, rand, read_backend, emit.
    destruct (np_random_rand E 100 100 (rng s)) as [noise g'].
    cbn [fst snd rng X_train log backend].
    eexists. eexists. split; [reflexivity|]. cbn [X_train log backend].
    split; [reflexivity|]. split.
    + rewrite <- !app_assoc. cbn [app]. reflexivity.
    + repeat split.
  - exists s, []. unfold ret. rewrite app_nil_r. repeat split.
Qed.

Lemma epoch_body_run (epoch : Z) (s : state E) :
  training_ratio args <> 0%Z ->
  let X := fst (np_random_shuffle E (rng s) (X_train s)) in
  let g := snd (np_random_shuffle E (rng s) (X_train s)) in
  let train := if (0 <? training_ratio args)%Z
               then expected_epoch_events E X ratio g else [] in
  exists s' ckpt,
    epoch_body args epoch s = (Ok tt, s') /\
    X_train s' = X /\
    log s' = log s ++ Shuffle :: train ++ ckpt /\
    existsb is_train_step ckpt = false /\
    files_written ckpt =
      (if ((epoch + 1) mod 2 =? 0)%Z
       then checkpoint_files (output_dir args) epoch else []) /\
    backend s' = backend_after train (backend s) /\
    forall b, backend_after ckpt b = b.
Proof.
  intros Hnz X g train. unfold epoch_body.
  unfold bind at 1. unfold shuffle.
  destruct (np_random_shuffle E (rng s) (X_train s)) as [X' g'] eqn:Hs.
  cbn [fst snd] in X, g. subst X g.
  set (s1 := {| rng := g'; backend := backend s; X_train := X';
                log := log s ++ [Shuffle] |}).
  assert (Ht : exists s2, train_epoch args s1 = (Ok tt, s2) /\
                          X_train s2 = X' /\ log s2 = log s1 ++ train /\
                          backend s2 = backend_after train (backend s)).
  { subst train. destruct (Z.ltb_spec 0 (training_ratio args)) as [Hpos|Hneg].
    - destruct (runs_train_epoch s1 Hpos) as (s2 & H2 & _ & HX & Hl & Hb).
      exists s2. auto.
    - exists s1. rewrite train_epoch_no_group by lia.
      rewrite app_nil_r. auto. }
  destruct Ht as (s2 & H2 & HX2 & Hl2 & Hb2).
  destruct (checkpoint_run epoch s2)
    as (s3 & ckpt & H3 & HX3 & Hl3 & Hc & Hf & Hb3 & Hid).
  exists s3, ckpt. unfold bind. rewrite H2, H3.
  split; [reflexivity|]. split; [congruence|].
  split; [|split; [assumption|split; [assumption|split; [congruence|assumption]]]].
  rewrite Hl3, Hl2. unfold s1. cbn [log].
  rewrite <- !app_assoc. reflexivity.
Qed.

Lemma epoch_body_segment (epoch : Z) (s : state E) :
  training_ratio args <> 0%Z ->
  exists s' evs,
    epoch_body args epoch s = (Ok tt, s') /\
    log s' = log s ++ evs /\
    epoch_segment (output_dir args) epoch evs.
Proof.
  intros Hnz.
  destruct (epoch_body_run epoch s Hnz) as (s' & ckpt & H & _ & Hl & Hc & Hf & _).
  eexists s', _. split; [exact H|]. split; [exact Hl|].
  eexists _, ckpt. split; [reflexivity|]. split; [|auto].
  destruct (0 <? training_ratio args)%Z; [|reflexivity].
  apply expected_events_train_steps.
Qed.

Lemma epochs_run (l : list Z) (s : state E) :
  training_ratio args <> 0%Z ->
  exists s' segs,
    for_each l (epoch_body args) s = (Ok tt, s') /\
    log s' = log s ++ concat segs /\
    Forall2 (epoch_segment (output_dir args)) l segs.
Proof.
  intros Hnz. revert s. induction l as [|e l IH]; intros s.
  - exists s, []. cbn. rewrite app_nil_r. auto.
  - destruct (epoch_body_segment e s Hnz) as (s1 & evs & H1 & Hl1 & Hseg).
    destruct (IH s1) as (s2 & segs & H2 & Hl2 & Hsegs).
    exists s2, (evs :: segs). cbn [for_each concat]. unfold bind.
    rewrite H1, H2. split; [reflexivity|]. split.
    + rewrite Hl2, Hl1, app_assoc. reflexivity.
    + constructor; assumption.
Qed.

Lemma segments_files (dir : string) (l : list Z) (segs : list (list (event E))) :
  Forall2 (epoch_segment dir) l segs ->
  files_written (concat segs) =
  flat_map (fun e => if ((e + 1) mod 2 =? 0)%Z then checkpoint_files dir e else []) l.
Proof.
  induction 1 as [|e evs l segs (train & ckpt & -> & Ht & _ & Hf) _ IH];
    [reflexivity|].
  cbn [concat flat_map]. rewrite files_written_app, IH.
  cbn [files_written written_file]. rewrite files_written_app, Hf.
  rewrite (files_written_train_steps _ Ht). reflexivity.
Qed.


(** C1 (as amended). With a training ratio other than zero, the loop runs
    its 50 passes; the log splits into 50 consecutive segments, one per
    loop index [0..49]; the segment of index [epoch] is the shuffle, then
    training steps, then the checkpoint events, which write
    [epoch_<epoch>.png], [epoch_<epoch>.pkl], [epoch_<epoch>_g.h5] and
    [epoch_<epoch>_d.h5] in the output directory when [(epoch + 1) % 2 == 0]
    and nothing otherwise.  So the files written are those of the indices
    1, 3, ..., 49, each at the end of the pass with that index (the 2nd,
    4th, ..., 50th pass). *)
Theorem checkpoints_of_training_loop (s : state E) :
  training_ratio args <> 0%Z ->
  exists s' segs,
    training_loop args s = (Ok tt, s') /\
    log s' = log s ++ concat segs /\
    Forall2 (epoch_segment (output_dir args)) (Py.range 50) segs /\
    files_written (concat segs) =
      flat_map (checkpoint_files (output_dir args))
               (map (fun k => 2 * k + 1)%Z (Py.range 25)).
Proof.
  intros Hnz. unfold training_loop.
  destruct (epochs_run (Py.range 50) s Hnz) as (s' & segs & H & Hl & Hseg).
  exists s', segs. split; [exact H|]. split; [exact Hl|]. split; [exact Hseg|].
  rewrite (segments_files Hseg). reflexivity.
Qed.

End TrainingFacts.

(** ** Invariants of a run *)

Section Preservation.

Variable E : Externals.
Variable R : state E -> state E -> Prop.
Hypothesis R_refl : forall s, R s s.
Hypothesis R_trans : forall s1 s2 s3, R s1 s2 -> R s2 s3 -> R s1 s3.

Lemma preserves_ret {A} (a : A) : preserves R (ret a).
Proof. intros s. apply R_refl. Qed.

Lemma preserves_raise {A} (e : Py.exn) : preserves R (raise (A := A) e).
Proof. intros s. apply R_refl. Qed.

Lemma preserves_lift_exn {A} (r : Py.exn + A) : preserves R (lift_exn r).
Proof. destruct r; [apply preserves_raise|apply preserves_ret]. Qed.

Lemma preserves_bind {A B} (c : M E A) (k : A -> M E B) :
  preserves R c -> (forall a, preserves R (k a)) -> preserves R (bind c k).
Proof.
  intros Hc Hk s. unfold bind. specialize (Hc s).
  destruct (c s) as [[a|e] s1]; cbn [snd] in *.
  - apply R_trans with s1; [assumption|apply Hk].
  - assumption.
Qed.

Lemma preserves_for_each {A} (l : list A) (body : A -> M E unit) :
  (forall x, preserves R (body x)) -> preserves R (for_each l body).
Proof.
  intros Hb. induction l as [|x l IH]; cbn [for_each].
  - apply preserves_ret.
  - apply preserves_bind; auto.
Qed.

End Preservation.

Section Failure.

Variable E : Externals.

Lemma fails_raise {A} (e : Py.exn) : fails (raise (E := E) (A := A) e).
Proof. intros s. exists e. reflexivity. Qed.

Lemma fails_bind_l {A B} (c : M E A) (k : A -> M E B) :
  fails c -> fails (bind c k).
Proof.
  intros Hc s. destruct (Hc s) as [e He]. exists e. unfold bind.
  destruct (c s) as [[a|e'] s1]; cbn [fst] in *; congruence.
Qed.

Lemma fails_bind_r {A B} (c : M E A) (k : A -> M E B) :
  (forall a, fails (k a)) -> fails (bind c k).
Proof.
  intros Hk s. unfold bind. destruct (c s) as [[a|e] s1].
  - apply Hk.
  - exists e. reflexivity.
Qed.

End Failure.

Section QuietFacts.

Variable E : Externals.

Lemma no_training_refl (s : state E) : no_training s s.
Proof. exists []. rewrite app_nil_r. auto. Qed.

Lemma no_training_trans (s1 s2 s3 : state E) :
  no_training s1 s2 -> no_training s2 s3 -> no_training s1 s3.
Proof.
  intros (e1 & H1 & P1) (e2 & H2 & P2). exists (e1 ++ e2). split.
  - rewrite H2, H1, app_assoc. reflexivity.
  - rewrite existsb_app, P1, P2. reflexivity.
Qed.

Lemma quiet_refl (s : state E) : quiet s s.
Proof. split; [reflexivity|apply no_training_refl]. Qed.

Lemma quiet_trans (s1 s2 s3 : state E) :
  quiet s1 s2 -> quiet s2 s3 -> quiet s1 s3.
Proof.
  intros [X1 H1] [X2 H2]. split; [congruence|].
  eapply no_training_trans; eassumption.
Qed.

Lemma quiet_same_log (s s' : state E) :
  X_train s' = X_train s -> log s' = log s -> quiet s s'.
Proof.
  intros HX Hl. split; [assumption|]. exists []. rewrite app_nil_r. auto.
Qed.

Lemma preserves_quiet_emit (e : event E) :
  is_train_step e = false -> preserves (@quiet E) (emit e).
Proof.
  intros He s. split; [reflexivity|]. exists [e]. split; [reflexivity|].
  cbn. rewrite He. reflexivity.
Qed.

Lemma preserves_quiet_with_backend (f : Backend E -> Backend E) :
  preserves (@quiet E) (with_backend f).
Proof. intros s. apply quiet_same_log; reflexivity. Qed.

Lemma preserves_quiet_try_backend (f : Backend E -> Py.exn + Backend E) :
  preserves (@quiet E) (try_backend f).
Proof.
  intros s. unfold try_backend. destruct (f (backend s));
    apply quiet_same_log; reflexivity.
Qed.

Lemma preserves_quiet_rand (r c : Z) : preserves (@quiet E) (rand (E := E) r c).
Proof.
  intros s. unfold rand. destruct (np_random_rand E r c (rng s)).
  apply quiet_same_log; reflexivity.
Qed.

Lemma preserves_quiet_read_backend {A} (f : Backend E -> A) :
  preserves (@quiet E) (read_backend f).
Proof. intros s. apply quiet_same_log; reflexivity. Qed.

End QuietFacts.

(** ** The script before and around the loop *)

Section MainFacts.

Variable E : Externals.
Variable args : Args.

Lemma preserves_weaken (R R' : state E -> state E -> Prop) {A} (c : M E A) :
  (forall s s', R s s' -> R' s s') -> preserves R c -> preserves R' c.
Proof. intros H Hc s. apply H, Hc. Qed.

Lemma quiet_no_training (s s' : state E) : quiet s s' -> no_training s s'.
Proof. intros [_ H]. exact H. Qed.

Ltac quiet_steps :=
  repeat first
    [ apply (@preserves_bind E _ (@quiet_trans E)); [|intros]
    | apply (@preserves_ret E _ (@quiet_refl E))
    | apply (@preserves_raise E _ (@quiet_refl E))
    | apply (@preserves_lift_exn E _ (@quiet_refl E))
    | apply preserves_quiet_with_backend
    | apply preserves_quiet_try_backend
    | apply preserves_quiet_rand
    | apply preserves_quiet_read_backend
    | apply preserves_quiet_emit; reflexivity ].

Lemma quiet_makedirs :
  preserves (@quiet E)
    (if negb (exists_ E (output_dir args))
     then emit (Makedirs (output_dir args)) else ret tt).
Proof. destruct (negb _); quiet_steps. Qed.

Lemma quiet_make_networks (family : model_family) :
  preserves (@quiet E) (make_networks (E := E) family).
Proof. destruct family; quiet_steps. Qed.

Lemma quiet_reload_weights : preserves (@quiet E) (reload_weights (E := E) args).
Proof.
  unfold reload_weights. destruct (Py.truthy _); [|quiet_steps].
  destruct (retrain_dir args); quiet_steps.
Qed.



Lemma quiet_checkpoint (epoch : Z) : preserves (@quiet E) (checkpoint (E := E) args epoch).
Proof.
  intros s.
  destruct (checkpoint_run args epoch s) as (s' & ckpt & H & HX & Hl & Hc & _).
  rewrite H. split; [exact HX|]. exists ckpt. auto.
Qed.

Lemma load_dataset_run (s : state E) :
  load_dataset (E := E) s =
  (Ok tt, {| rng := rng s; backend := backend s;
             X_train := map (map normalize_pixel)
                          (fst (fst (cifar10_load_data E))
                           ++ fst (snd (cifar10_load_data E)));
             log := log s |}).
Proof.
  unfold load_dataset.
  destruct (cifar10_load_data E) as [[Xtr ytr] [Xte yte]]. reflexivity.
Qed.

Lemma no_training_load_dataset : preserves (@no_training E) (load_dataset (E := E)).
Proof.
  intros s. rewrite load_dataset_run. exists []. cbn [snd log].
  rewrite app_nil_r. auto.
Qed.

(** The test [args.schedule not in [None, 'adagrad', 'adam']]. *)
Lemma schedule_not_in (sched : option string) :
  sched <> None -> sched <> Some "adagrad"%string -> sched <> Some "adam"%string ->
  Py.In_ sched [None; Some "adagrad"; Some "adam"]%string = false.
Proof.
  intros H1 H2 H3. destruct sched as [x|]; [|contradiction].
  cbn. rewrite !orb_false_r. apply orb_false_intro; apply String.eqb_neq; congruence.
Qed.

Lemma check_schedule_raises (s : state E) :
  Py.In_ (schedule args) [None; Some "adagrad"; Some "adam"]%string = false ->
  exists msg, check_schedule (E := E) args s = (Raise (Py.ValueError msg), s).
Proof.
  intros H. unfold check_schedule. rewrite H. cbn [negb].
  eexists. reflexivity.
Qed.

(** C7. When [--schedule] is neither absent nor ['adagrad'] nor ['adam'],
    the script ends by raising, and nothing it has done until then is a
    call to [train_on_batch]. *)
Theorem unrecognized_schedule_fails_fast (s : state E) :
  schedule args <> None ->
  schedule args <> Some "adagrad"%string ->
  schedule args <> Some "adam"%string ->
  exists e s' evs,
    main args s = (Raise e, s') /\
    log s' = log s ++ evs /\
    existsb is_train_step evs = false.
Proof.
  intros H1 H2 H3. pose proof (schedule_not_in H1 H2 H3) as Hbad.
  assert (Hfail : fails (main (E := E) args)).
  { unfold main. do 4 (apply fails_bind_r; intros _). apply fails_bind_l.
    intros s0. destruct (check_schedule_raises s0 Hbad) as [msg Hm].
    rewrite Hm. eexists. reflexivity. }
  assert (Hquiet : preserves (@no_training E) (main (E := E) args)).
  { unfold main.
    apply (@preserves_bind E _ (@no_training_trans E));
      [apply (@preserves_weaken _ _ _ _ quiet_no_training), quiet_makedirs|intros _].
    apply (@preserves_bind E _ (@no_training_trans E));
      [apply no_training_load_dataset|intros _].
    apply (@preserves_bind E _ (@no_training_trans E));
      [apply (@preserves_weaken _ _ _ _ quiet_no_training), quiet_make_networks|intros _].
    apply (@preserves_bind E _ (@no_training_trans E));
      [apply (@preserves_weaken _ _ _ _ quiet_no_training), quiet_reload_weights|intros _].
    intros s0. unfold bind at 1.
    destruct (check_schedule_raises s0 Hbad) as [msg Hm]. rewrite Hm.
    apply no_training_refl. }
  destruct (Hfail s) as [e He]. destruct (Hquiet s) as (evs & Hl & Hn).
  destruct (main args s) as [r s'] eqn:Hmain. cbn [fst snd] in *. subst r.
  exists e, s', evs. auto.
Qed.

End MainFacts.

(** ** The script on the small world *)

Section ToyRuns.

Local Open Scope string_scope.

Example checkpoint_files_of_index_1 :
  checkpoint_files "out" 1 =
  ["out/epoch_1.png"; "out/epoch_1.pkl"; "out/epoch_1_g.h5"; "out/epoch_1_d.h5"].
Proof. reflexivity. Qed.

Example os_path_join_cases :
  Py.os_path_join "out/" "epoch_3.png" = "out/epoch_3.png" /\
  Py.os_path_join "" "epoch_3.png" = "epoch_3.png" /\
  Py.os_path_join "a/b" "epoch_3.png" = "a/b/epoch_3.png".
Proof. repeat split. Qed.

Example np_round_ties_to_even :
  np_round (1 # 2) = 0%Z /\ np_round (3 # 2) = 2%Z /\ np_round (5 # 2) = 2%Z /\
  np_round (-(1 # 2)) = 0%Z /\ np_round (255 # 1) = 255%Z.
Proof. repeat split. Qed.

Example slice_clamps :
  Py.slice [1; 2; 3; 4; 5]%Z 3 10 = [4; 5]%Z /\
  Py.slice [1; 2; 3; 4; 5]%Z (-2) 5 = [4; 5]%Z /\
  Py.slice [1; 2; 3; 4; 5]%Z 4 2 = [].
Proof. repeat split. Qed.

(** With 130 images and a ratio of 1 an epoch has two groups: 128 images
    are trained on, two are left out. *)
Example toy_epoch_groups :
  groups_per_epoch (X_train toy_loaded) 1 = 2%nat /\
  length (X_train toy_loaded) = 130%nat.
Proof. split; reflexivity. Qed.

(** A ratio of zero stops the run in the first pass, at the division. *)
Example toy_zero_ratio :
  fst (main (E := toy) (toy_args 0 None) toy_start) = Raise Py.ZeroDivisionError /\
  files_written (log (snd (main (E := toy) (toy_args 0 None) toy_start))) = [].
Proof. split; vm_compute; reflexivity. Qed.


Lemma checkpoints_of_training_loop_witness :
  training_ratio (toy_args 1 None) <> 0%Z /\
  exists s' segs,
    training_loop (toy_args 1 None) toy_loaded = (Ok tt, s') /\
    log s' = (log toy_loaded ++ concat segs)%list /\
    Forall2 (epoch_segment "out") (Py.range 50) segs /\
    files_written (concat segs) =
      flat_map (checkpoint_files "out") (map (fun k => 2 * k + 1)%Z (Py.range 25)).
Proof.
  assert (H : training_ratio (toy_args 1 None) <> 0%Z) by discriminate.
  split; [exact H|].
  exact (checkpoints_of_training_loop (toy_args 1 None) toy_loaded H).
Defined.

(** C1, as stated, fails on the first two passes of the loop: the first
    pass (epoch 1, counting from 1) leaves no file, and the files named
    [epoch_1] are written by the second pass. *)
Lemma first_epoch_writes_no_checkpoint :
  let s1 := snd (epoch_body (toy_args 1 None) 0 toy_loaded) in
  let s2 := snd (epoch_body (toy_args 1 None) 1 s1) in
  fst (epoch_body (toy_args 1 None) 0 toy_loaded) = Ok tt /\
  files_written (log s1) = [] /\
  files_written (log s2) =
    ["out/epoch_1.png"; "out/epoch_1.pkl"; "out/epoch_1_g.h5"; "out/epoch_1_d.h5"].
Proof. repeat split; vm_compute; reflexivity. Qed.

Lemma unrecognized_schedule_fails_fast_witness :
  schedule (toy_args 1 (Some "rmsprop")) <> None /\
  schedule (toy_args 1 (Some "rmsprop")) <> Some "adagrad" /\
  schedule (toy_args 1 (Some "rmsprop")) <> Some "adam" /\
  exists e s' evs,
    main (toy_args 1 (Some "rmsprop")) toy_start = (Raise e, s') /\
    log s' = (log toy_start ++ evs)%list /\
    existsb is_train_step evs = false.
Proof.
  assert (H1 : schedule (toy_args 1 (Some "rmsprop")) <> None) by discriminate.
  assert (H2 : schedule (toy_args 1 (Some "rmsprop")) <> Some "adagrad")
    by discriminate.
  assert (H3 : schedule (toy_args 1 (Some "rmsprop")) <> Some "adam")
    by discriminate.
  repeat (split; [assumption|]).
  exact (@unrecognized_schedule_fails_fast toy (toy_args 1 (Some "rmsprop")) toy_start H1 H2 H3).
Defined.

Lemma toy_shuffle_contract : shuffle_contract toy.
Proof. intros g X. cbn. apply Permutation_rev. Qed.

End ToyRuns.

(** * Further properties of the script *)

(** ** The labels and the losses *)

Section LabelFacts.

Local Open Scope R_scope.

Lemma Q2R_positive_y : map Q2R positive_y = repeat 1 (Z.to_nat BATCH_SIZE).
Proof.
  unfold positive_y. induction (Z.to_nat BATCH_SIZE) as [|n IH];
    [reflexivity|].
  cbn [repeat map]. rewrite IH. f_equal. unfold Q2R. cbn. field.
Qed.

Lemma Q2R_negative_y :
  map Q2R negative_y = K.neg (repeat 1 (Z.to_nat BATCH_SIZE)).
Proof.
  unfold negative_y. rewrite map_map. rewrite <- Q2R_positive_y.
  unfold K.neg. rewrite map_map. apply map_ext. intros q. apply Q2R_opp.
Qed.

Lemma sum_ones_product (p : list R) :
  K.sum (K.zip_with Rmult (repeat 1 (length p)) p) = K.sum p.
Proof. induction p as [|x p IH]; cbn; [|rewrite IH]; ring. Qed.

Lemma sum_neg_ones_product (p : list R) :
  K.sum (K.zip_with Rmult (K.neg (repeat 1 (length p))) p) = - K.sum p.
Proof.
  induction p as [|x p IH]; cbn; [ring|].
  change (map Ropp (repeat 1 (length p))) with (K.neg (repeat 1 (length p))).
  rewrite IH. ring.
Qed.

(** X1. Against the label vector [positive_y] the Wasserstein loss of a
    batch of [BATCH_SIZE] predictions is their mean, and against
    [negative_y] it is the opposite of their mean: the labels only choose
    the sign of the mean score. *)
Theorem wasserstein_loss_of_labels (y_pred : list R) :
  length y_pred = Z.to_nat BATCH_SIZE ->
  wasserstein_loss (map Q2R positive_y) y_pred = Some (K.mean y_pred) /\
  wasserstein_loss (map Q2R negative_y) y_pred = Some (- K.mean y_pred).
Proof.
  intros Hlen. rewrite Q2R_positive_y, Q2R_negative_y, <- Hlen. split.
  - rewrite wasserstein_loss_same_shape by (symmetry; apply repeat_length).
    rewrite sum_ones_product, repeat_length. reflexivity.
  - rewrite wasserstein_loss_same_shape
      by (unfold K.neg; rewrite length_map; symmetry; apply repeat_length).
    rewrite sum_neg_ones_product. unfold K.neg.
    rewrite length_map, repeat_length. unfold K.mean, Rdiv. f_equal. ring.
Qed.

Lemma wasserstein_loss_of_labels_witness :
  length (repeat 2 (Z.to_nat BATCH_SIZE)) = Z.to_nat BATCH_SIZE /\
  wasserstein_loss (map Q2R positive_y) (repeat 2 (Z.to_nat BATCH_SIZE)) =
    Some (K.mean (repeat 2 (Z.to_nat BATCH_SIZE))).
Proof.
  assert (H : length (repeat 2 (Z.to_nat BATCH_SIZE)) = Z.to_nat BATCH_SIZE)
    by apply repeat_length.
  split; [exact H|]. exact (proj1 (wasserstein_loss_of_labels _ H)).
Defined.

End LabelFacts.

(** ** The interpolation layer outside its intended use *)

Section MergeFacts.

Local Open Scope R_scope.

Variable Gen : Type.
Variable K_random_uniform : Z -> Gen -> list R * Gen.

Lemma weighted_wrong_batch (ws : list R) (t : K.tensor) :
  length ws = Z.to_nat BATCH_SIZE ->
  length t <> Z.to_nat BATCH_SIZE -> length t <> 1%nat ->
  weighted ws t = None.
Proof.
  intros Hws Ht H1. unfold weighted.
  destruct (Nat.eqb_spec (length ws) (length t)) as [He|_]; [congruence|].
  destruct ws as [|w [|w' ws]]; try discriminate Hws.
  destruct t as [|s [|s' t]]; try reflexivity. contradiction H1. reflexivity.
Qed.

(** X3. The layer draws [BATCH_SIZE] weights whatever it is given: merging
    fails with a shape error as soon as one of the two batches has a number
    of samples other than [BATCH_SIZE] (or 1, which broadcasts). *)
Theorem merge_needs_full_batches (real gen : K.tensor) (g : Gen) :
  uniform_contract K_random_uniform ->
  (length real <> Z.to_nat BATCH_SIZE /\ length real <> 1%nat) \/
  (length gen <> Z.to_nat BATCH_SIZE /\ length gen <> 1%nat) ->
  fst (_merge_function K_random_uniform [real; gen] g) = None.
Proof.
  intros Hu Hbad. destruct (Hu BATCH_SIZE g) as [Hlen _].
  unfold _merge_function.
  destruct (K_random_uniform BATCH_SIZE g) as [weights g']. cbn [fst] in *.
  cbn [nth_error]. destruct Hbad as [[Hr H1]|[Hg H1]].
  - rewrite (@weighted_wrong_batch weights real Hlen Hr H1). reflexivity.
  - rewrite (@weighted_wrong_batch (map (fun w => 1 - w) weights) gen);
      [|rewrite length_map; assumption|assumption|assumption].
    destruct (weighted weights real); reflexivity.
Qed.

End MergeFacts.

Lemma merge_needs_full_batches_witness :
  uniform_contract toy_uniform /\
  ((length (firstn 10 toy_real) <> Z.to_nat BATCH_SIZE /\
    length (firstn 10 toy_real) <> 1%nat) \/
   (length toy_generated <> Z.to_nat BATCH_SIZE /\
    length toy_generated <> 1%nat)) /\
  fst (_merge_function toy_uniform [firstn 10 toy_real; toy_generated] 0%nat)
  = None.
Proof.
  assert (H : (length (firstn 10 toy_real) <> Z.to_nat BATCH_SIZE /\
               length (firstn 10 toy_real) <> 1%nat) \/
              (length toy_generated <> Z.to_nat BATCH_SIZE /\
               length toy_generated <> 1%nat)).
  { left. split; vm_compute; discriminate. }
  split; [exact toy_uniform_contract|]. split; [exact H|].
  exact (@merge_needs_full_batches nat toy_uniform (firstn 10 toy_real)
           toy_generated 0%nat toy_uniform_contract H).
Defined.

(** ** Pixels, from the dataset to the saved images *)

Section PixelRangeFacts.

Local Open Scope Q_scope.






End PixelRangeFacts.

(** ** Tiling *)

Section TileFacts.

Local Open Scope nat_scope.

Lemma nth_flat_map_blocks {A B} (f : A -> list B) (L : nat) (d : B) (a0 : A) :
  forall (l : list A) (k j : nat),
    (forall a, In a l -> length (f a) = L) ->
    (k < length l)%nat -> (j < L)%nat ->
    nth (k * L + j) (flat_map f l) d = nth j (f (nth k l a0)) d.
Proof.
  induction l as [|a l IH]; intros k j Hlen Hk Hj; [cbn in Hk; lia|].
  cbn [flat_map]. destruct k as [|k].
  - cbn [Nat.mul Nat.add nth]. apply app_nth1. rewrite Hlen by (left; reflexivity).
    assumption.
  - rewrite app_nth2; rewrite Hlen by (left; reflexivity); [|lia].
    replace (S k * L + j - L)%nat with (k * L + j)%nat by lia.
    cbn [nth]. apply IH; [|cbn in Hk; lia|assumption].
    intros b Hb. apply Hlen. right. assumption.
Qed.

Lemma length_flat_map_blocks {A B} (f : A -> list B) (L : nat) (l : list A) :
  (forall a, In a l -> length (f a) = L) ->
  length (flat_map f l) = (length l * L)%nat.
Proof.
  induction l as [|a l IH]; intros H; [reflexivity|].
  cbn [flat_map length]. rewrite length_app, H, IH; [lia| |left; reflexivity].
  intros b Hb. apply H. right. assumption.
Qed.

Lemma nth_block {B} (l : list B) (off len j : nat) (d : B) :
  (j < len)%nat ->
  nth j (firstn len (skipn off l)) d = nth (off + j) l d.
Proof.
  intros Hj. rewrite nth_firstn.
  destruct (Nat.ltb_spec j len); [|lia]. apply nth_skipn.
Qed.

Lemma length_block {B} (l : list B) (off len : nat) :
  (off + len <= length l)%nat -> length (firstn len (skipn off l)) = len.
Proof. intros H. rewrite length_firstn, length_skipn. lia. Qed.

(** X8. [tile_images] lays the images side by side.  For a stack of shape
    [(n, h, w, c)] with at least one image, the result has shape
    [(h, n * w, c)], holds as many elements as its shape says, and the
    element at row [r], column [i * w + x], channel [ch] is the element
    [(r, x, ch)] of the [i]-th image. *)
Theorem tile_images_layout (image_stack : ndarray) (n h w c : nat) :
  well_formed image_stack ->
  shape image_stack = [n; h; w; c] ->
  (0 < n)%nat ->
  exists tiled,
    tile_images image_stack = inr tiled /\
    shape tiled = [h; n * w; c]%nat /\
    well_formed tiled /\
    forall i r x ch,
      (i < n)%nat -> (r < h)%nat -> (x < w)%nat -> (ch < c)%nat ->
      nth ((r * (n * w) + (i * w + x)) * c + ch) (data tiled) 0%Z =
      nth (((i * h + r) * w + x) * c + ch) (data image_stack) 0%Z.
Proof.
  intros Hwf Hshape Hn. unfold well_formed in Hwf. rewrite Hshape in Hwf.
  cbn [size fold_right] in Hwf. rewrite Nat.mul_1_r in Hwf.
  unfold tile_images. rewrite Hshape.
  set (image := fun i => firstn (h * w * c) (skipn (i * (h * w * c)) (data image_stack))).
  set (image_list := map image (seq 0 n)).
  set (row := fun r img => firstn (w * c) (skipn (r * (w * c)) img) : list Z).
  change (flat_map
            (fun r => flat_map (fun img => firstn (w * c) (skipn (r * (w * c)) img))
                               image_list)
            (seq 0 h))
    with (flat_map (fun r => flat_map (row r) image_list) (seq 0 h)).
  assert (Himg : forall img, In img image_list -> length img = (h * w * c)%nat).
  { intros img Hin. apply in_map_iff in Hin. destruct Hin as (i & <- & Hi).
    apply in_seq in Hi. apply length_block. nia. }
  assert (Hrow : forall r, (r < h)%nat -> forall img, In img image_list ->
                           length (row r img) = (w * c)%nat).
  { intros r Hr img Hin. apply length_block. rewrite (Himg img Hin). nia. }
  assert (Hrows : forall r, In r (seq 0 h) ->
                    length (flat_map (row r) image_list) = (n * (w * c))%nat).
  { intros r Hr. apply in_seq in Hr.
    rewrite (@length_flat_map_blocks _ _ (row r) (w * c) image_list);
      [unfold image_list; rewrite length_map, length_seq; reflexivity|].
    apply Hrow. lia. }
  destruct image_list as [|img0 rest] eqn:Hlist.
  { assert (Hl : length image_list = n)
      by (unfold image_list; rewrite length_map, length_seq; reflexivity).
    rewrite Hlist in Hl. cbn in Hl. lia. }
  rewrite <- Hlist in *. clear Hlist img0 rest.
  eexists. split; [reflexivity|]. cbn [shape data].
  split; [reflexivity|]. split.
  - unfold well_formed. cbn [shape data size fold_right].
    rewrite (@length_flat_map_blocks _ _ _ (n * (w * c)) (seq 0 h) Hrows).
    rewrite length_seq. lia.
  - intros i r x ch Hi Hr Hx Hch.
    assert (Hj1 : x * c + ch < w * c).
    { apply Nat.lt_le_trans with ((x + 1) * c); [lia|].
      apply Nat.mul_le_mono_r. lia. }
    assert (Hj2 : i * (w * c) + (x * c + ch) < n * (w * c)).
    { apply Nat.lt_le_trans with ((i + 1) * (w * c)); [lia|].
      apply Nat.mul_le_mono_r. lia. }
    assert (Hj3 : r * (w * c) + (x * c + ch) < h * w * c).
    { apply Nat.lt_le_trans with ((r + 1) * (w * c)); [lia|].
      rewrite <- Nat.mul_assoc. apply Nat.mul_le_mono_r. lia. }
    replace ((r * (n * w) + (i * w + x)) * c + ch)
      with (r * (n * (w * c)) + (i * (w * c) + (x * c + ch))) by lia.
    rewrite (@nth_flat_map_blocks _ _ _ (n * (w * c)) 0%Z 0%nat (seq 0 h));
      [|exact Hrows|rewrite length_seq; assumption|assumption].
    rewrite seq_nth by assumption. cbn [Nat.add].
    rewrite (@nth_flat_map_blocks _ _ (row r) (w * c) 0%Z [] image_list);
      [|apply Hrow; assumption
       |unfold image_list; rewrite length_map, length_seq; assumption
       |assumption].
    unfold image_list.
    rewrite (nth_indep _ [] (image 0%nat))
      by (rewrite length_map, length_seq; assumption).
    rewrite map_nth, seq_nth by assumption. cbn [Nat.add].
    unfold row, image. rewrite nth_block by assumption.
    rewrite nth_block by assumption.
    f_equal. lia.
Qed.

Lemma tile_images_layout_witness :
  well_formed toy_stack /\ shape toy_stack = [2; 2; 3; 2]%nat /\ (0 < 2)%nat /\
  exists tiled,
    tile_images toy_stack = inr tiled /\ shape tiled = [2; 2 * 3; 2]%nat.
Proof.
  assert (H1 : well_formed toy_stack) by reflexivity.
  assert (H2 : shape toy_stack = [2; 2; 3; 2]%nat) by reflexivity.
  assert (H3 : (0 < 2)%nat) by lia.
  repeat (split; [assumption|]).
  destruct (tile_images_layout H1 H2 H3) as (tiled & Ht & Hs & _).
  exists tiled. split; assumption.
Defined.

Example tile_images_toy :
  tile_images toy_stack =
  inr {| shape := [2; 6; 2]%nat;
         data := [0; 1; 2; 3; 4; 5; 12; 13; 14; 15; 16; 17;
                  6; 7; 8; 9; 10; 11; 18; 19; 20; 21; 22; 23]%Z |}.
Proof. reflexivity. Qed.

(** X9. The two ways [tile_images] fails: on an array that does not have
    four axes its assertion fails, and on an empty stack of four axes
    [np.concatenate] has nothing to concatenate; on every other array it
    returns. *)
Theorem tile_images_errors (image_stack : ndarray) :
  match tile_images image_stack with
  | inl AssertionError => length (shape image_stack) <> 4%nat
  | inl ConcatenateValueError =>
      length (shape image_stack) = 4%nat /\ nth 0 (shape image_stack) 0%nat = 0%nat
  | inr _ =>
      length (shape image_stack) = 4%nat /\ nth 0 (shape image_stack) 0%nat <> 0%nat
  end.
Proof.
  unfold tile_images.
  destruct (shape image_stack) as [|n [|h [|w [|c [|? ?]]]]]; cbn; try lia.
  destruct n as [|n]; cbn; auto.
Qed.

Lemma squeeze_no_unit_axis (a : ndarray) :
  Forall (fun d => d <> 1%nat) (shape a) -> squeeze a = a.
Proof.
  intros H. unfold squeeze. destruct a as [sh dt]. cbn [shape data] in *.
  f_equal. induction H as [|d sh Hd Hs IH]; [reflexivity|].
  cbn [filter]. destruct (Nat.eqb_spec d 1); [contradiction|].
  cbn [negb]. rewrite IH. reflexivity.
Qed.

Lemma filter_shorter {A} (f : A -> bool) (l : list A) :
  (exists x, In x l /\ f x = false) -> (length (filter f l) < length l)%nat.
Proof.
  intros (x & Hin & Hx). induction l as [|a l IH]; [contradiction|].
  cbn [filter length]. pose proof (filter_length_le f l) as Hle.
  destruct Hin as [->|Hin].
  - rewrite Hx. lia.
  - specialize (IH Hin). destruct (f a); cbn [length]; lia.
Qed.

(** X10. What [generate_images] passes to [tile_images] is the squeezed
    stack: a stack of four axes is tiled as it is when none of its axes has
    length 1, and fails the assertion of [tile_images] as soon as one has
    (a single image, or images of one row, one column or one channel). *)
Theorem tile_images_after_squeeze (image_stack : ndarray) :
  length (shape image_stack) = 4%nat ->
  (Forall (fun d => d <> 1%nat) (shape image_stack) ->
   tile_images (squeeze image_stack) = tile_images image_stack) /\
  (In 1%nat (shape image_stack) ->
   tile_images (squeeze image_stack) = inl AssertionError).
Proof.
  intros H4. split.
  - intros H. rewrite squeeze_no_unit_axis by assumption. reflexivity.
  - intros Hin.
    assert (Hlt : (length (shape (squeeze image_stack)) < 4)%nat).
    { rewrite <- H4. cbn [squeeze shape]. apply filter_shorter.
      exists 1%nat. split; [assumption|reflexivity]. }
    pose proof (tile_images_errors (squeeze image_stack)) as He.
    destruct (tile_images (squeeze image_stack)) as [[|]|t];
      [reflexivity|lia|lia].
Qed.

Lemma tile_images_after_squeeze_witness :
  length (shape toy_stack) = 4%nat /\
  tile_images (squeeze toy_stack) = tile_images toy_stack.
Proof.
  assert (H : length (shape toy_stack) = 4%nat) by reflexivity.
  split; [exact H|].
  apply (proj1 (tile_images_after_squeeze toy_stack H)).
  repeat constructor; discriminate.
Defined.

End TileFacts.

(** ** How a run can end *)

Section LogsOnly.

Variable E : Externals.
Variable f : event E -> bool.








End LogsOnly.

Section EndingFacts.

Variable E : Externals.
Variable args : Args.


Lemma make_optimizers_cases (s : state E) :
  if existsb (String.eqb (optimizer args)) known_optimizers
  then exists o, make_optimizers args s = (Ok (o, o), s)
  else make_optimizers args s = (Raise (Py.KeyError (optimizer args)), s).
Proof.
  unfold make_optimizers, optim_mapper, known_optimizers. cbn [existsb].
  destruct (String.eqb (optimizer args) "SGD").
  { cbn [orb]. destruct (Py.eq_opt_string _ _); eexists; reflexivity. }
  destruct (String.eqb (optimizer args) "optimAdam");
    [cbn [orb]; eexists; reflexivity|].
  destruct (String.eqb (optimizer args) "extraOptimAdam");
    [cbn [orb]; eexists; reflexivity|].
  destruct (String.eqb (optimizer args) "optimAdagrad");
    [cbn [orb]; eexists; reflexivity|].
  destruct (String.eqb (optimizer args) "OFRL");
    [cbn [orb]; eexists; reflexivity|].
  destruct (String.eqb (optimizer args) "OMDA");
    [cbn [orb]; eexists; reflexivity|].
  reflexivity.
Qed.


(** X11. [make_optimizers] either raises [KeyError] with the value of
    [--optimizer], which it does exactly for a key outside the six it
    knows, or returns two optimizers that are configured alike; it changes
    nothing else. *)
Theorem make_optimizers_pair (s : state E) :
  if existsb (String.eqb (optimizer args)) known_optimizers
  then exists o, make_optimizers args s = (Ok (o, o), s)
  else make_optimizers args s = (Raise (Py.KeyError (optimizer args)), s).
Proof. apply make_optimizers_cases. Qed.








Lemma epoch_body_zero_ratio (epoch : Z) (s : state E) :
  training_ratio args = 0%Z ->
  epoch_body args epoch s =
  (Raise Py.ZeroDivisionError,
   {| rng := snd (np_random_shuffle E (rng s) (X_train s));
      backend := backend s;
      X_train := fst (np_random_shuffle E (rng s) (X_train s));
      log := log s ++ [Shuffle] |}).
Proof.
  intros Hz. unfold epoch_body, bind, shuffle, train_epoch, TRAINING_RATIO,
    get_X_train, Py.floordiv.
  destruct (np_random_shuffle E (rng s) (X_train s)) as [X g].
  rewrite Hz. reflexivity.
Qed.

Lemma training_loop_stops_at_division (s : state E) :
  training_ratio args = 0%Z ->
  exists s',
    training_loop args s = (Raise Py.ZeroDivisionError, s') /\
    log s' = log s ++ [Shuffle] /\
    X_train s' = fst (np_random_shuffle E (rng s) (X_train s)) /\
    backend s' = backend s.
Proof.
  intros Hz. unfold training_loop.
  change (Py.range 50) with (0%Z :: map Z.of_nat (seq 1 49)).
  cbn [for_each]. unfold bind at 1. rewrite (epoch_body_zero_ratio 0 s Hz).
  eexists. split; [reflexivity|]. auto.
Qed.


(** X12. With a training ratio of zero the loop stops in its first pass:
    the array has been shuffled once, and the division that counts the
    groups raises before any training step, any checkpoint or any change of
    the networks. *)
Theorem training_loop_zero_ratio (s : state E) :
  training_ratio args = 0%Z ->
  exists s',
    training_loop args s = (Raise Py.ZeroDivisionError, s') /\
    log s' = log s ++ [Shuffle] /\
    X_train s' = fst (np_random_shuffle E (rng s) (X_train s)) /\
    backend s' = backend s.
Proof. apply training_loop_stops_at_division. Qed.

(** *** A negative training ratio *)

Lemma checkpoint_keeps_backend (epoch : Z) (s : state E) :
  backend (snd (checkpoint args epoch s)) = backend s.
Proof.
  unfold checkpoint. destruct ((epoch + 1) mod 2 =? 0)%Z; [|reflexivity].
  unfold generate_images, bind, rand, read_backend, emit.
  destruct (np_random_rand E 100 100 (rng s)) as [noise g']. reflexivity.
Qed.

Let untrained (s s' : state E) : Prop :=
  backend s' = backend s /\ no_training s s'.

Lemma untrained_refl (s : state E) : untrained s s.
Proof. split; [reflexivity|apply no_training_refl]. Qed.

Lemma untrained_trans (s1 s2 s3 : state E) :
  untrained s1 s2 -> untrained s2 s3 -> untrained s1 s3.
Proof.
  intros [B1 H1] [B2 H2]. split; [congruence|].
  eapply no_training_trans; eassumption.
Qed.

Lemma untrained_loop :
  (training_ratio args < 0)%Z -> preserves untrained (training_loop args).
Proof.
  intros Hneg. unfold training_loop.
  apply (@preserves_for_each E _ untrained_refl untrained_trans).
  intros epoch. unfold epoch_body.
  apply (@preserves_bind E _ untrained_trans).
  { intros s. unfold shuffle.
    destruct (np_random_shuffle E (rng s) (X_train s)) as [X g].
    split; [reflexivity|]. exists [Shuffle]. auto. }
  intros _. apply (@preserves_bind E _ untrained_trans).
  { intros s. rewrite (train_epoch_no_group args s Hneg). apply untrained_refl. }
  intros _ s. split; [apply checkpoint_keeps_backend|].
  apply quiet_checkpoint.
Qed.

(** X14. With a negative training ratio the loop runs its 50 passes
    without a single training step: the networks are never updated, and
    the 25 checkpoints are written all the same. *)
Theorem training_loop_negative_ratio (s : state E) :
  (training_ratio args < 0)%Z ->
  exists s' evs,
    training_loop args s = (Ok tt, s') /\
    log s' = log s ++ evs /\
    existsb is_train_step evs = false /\
    backend s' = backend s /\
    files_written evs =
      flat_map (checkpoint_files (output_dir args))
               (map (fun k => 2 * k + 1)%Z (Py.range 25)).
Proof.
  intros Hneg. assert (Hnz : training_ratio args <> 0%Z) by lia.
  destruct (epochs_run args (Py.range 50) s Hnz) as (s' & segs & H & Hl & Hseg).
  destruct (untrained_loop Hneg s) as (Hb & evs & Hl' & Hn).
  unfold training_loop in *. rewrite H in Hb, Hl'. cbn [snd] in Hb, Hl'.
  assert (Hevs : evs = concat segs).
  { rewrite Hl in Hl'. apply app_inv_head in Hl'. auto. }
  exists s', evs. split; [exact H|]. split; [exact Hl'|].
  split; [exact Hn|]. split; [exact Hb|].
  rewrite Hevs, (segments_files Hseg). reflexivity.
Qed.

(** *** A run that completes *)

Lemma count_app (f : event E -> bool) (l1 l2 : list (event E)) :
  count f (l1 ++ l2) = (count f l1 + count f l2)%nat.
Proof. unfold count. rewrite filter_app, length_app. reflexivity. Qed.

Lemma count_flat_map (f : event E -> bool) (g : nat -> list (event E))
    (c : nat) (l : list nat) :
  (forall i, count f (g i) = c) -> count f (flat_map g l) = (length l * c)%nat.
Proof.
  intros H. induction l as [|i l IH]; [reflexivity|].
  cbn [flat_map length]. rewrite count_app, H, IH. lia.
Qed.

Lemma count_none (f : event E -> bool) (l : list (event E)) :
  (forall e, f e = true -> is_train_step e = true) ->
  existsb is_train_step l = false -> count f l = 0%nat.
Proof.
  intros Hf. induction l as [|e l IH]; [reflexivity|].
  cbn [existsb]. intros H. apply orb_false_elim in H. destruct H as [He Hl].
  unfold count in *. cbn [filter]. destruct (f e) eqn:Hfe.
  - rewrite (Hf e Hfe) in He. discriminate.
  - auto.
Qed.

Lemma count_map_const (A : Type) (f : event E -> bool) (h : A -> event E)
    (b : bool) (l : list A) :
  (forall a, f (h a) = b) ->
  count f (map h l) = if b then length l else 0%nat.
Proof.
  intros H. unfold count. induction l as [|a l IH]; [destruct b; reflexivity|].
  cbn [map filter]. rewrite H. destruct b; cbn [length]; rewrite IH; reflexivity.
Qed.

Lemma count_steps_of_group (X : list Sample) (ratio : nat) (g : Rng E) (i : nat) :
  count is_discriminator_step (expected_group_events E X ratio g i) = ratio /\
  count is_generator_step (expected_group_events E X ratio g i) = 1%nat.
Proof.
  unfold expected_group_events. rewrite !count_app. split.
  - rewrite (@count_map_const _ _ _ true) by reflexivity.
    rewrite length_seq. unfold count. cbn. lia.
  - rewrite (@count_map_const _ _ _ false) by reflexivity.
    reflexivity.
Qed.

Lemma count_steps_of_epoch (X : list Sample) (ratio : nat) (g : Rng E) :
  count is_discriminator_step (expected_epoch_events E X ratio g) =
    (groups_per_epoch X ratio * ratio)%nat /\
  count is_generator_step (expected_epoch_events E X ratio g) =
    groups_per_epoch X ratio.
Proof.
  unfold expected_epoch_events. split.
  - rewrite (@count_flat_map _ _ ratio); [rewrite length_seq; reflexivity|].
    intros i. apply count_steps_of_group.
  - rewrite (@count_flat_map _ _ 1%nat); [rewrite length_seq; lia|].
    intros i. apply count_steps_of_group.
Qed.

Lemma epochs_step_counts (l : list Z) (n : nat) :
  shuffle_contract E -> (0 < training_ratio args)%Z ->
  let ratio := Z.to_nat (training_ratio args) in
  let groups := (n / (Z.to_nat BATCH_SIZE * ratio))%nat in
  forall s, length (X_train s) = n ->
  exists (s' : state E) (evs : list (event E)),
    for_each l (epoch_body args) s = (Ok tt, s') /\
    length (X_train s') = n /\
    log s' = log s ++ evs /\
    backend s' = backend_after evs (backend s) /\
    count is_discriminator_step evs = (length l * (groups * ratio))%nat /\
    count is_generator_step evs = (length l * groups)%nat.
Proof.
  intros Hc Hpos ratio groups. assert (Hnz : training_ratio args <> 0%Z) by lia.
  induction l as [|e l IH]; intros s Hn.
  - exists s, []. cbn. rewrite app_nil_r. repeat split; auto.
  - destruct (epoch_body_run args e s Hnz)
      as (s1 & ckpt & H1 & HX & Hl & Hk & _ & Hb & Hid).
    destruct (Z.ltb_spec 0 (training_ratio args)) as [_|]; [|lia].
    assert (HlenX : length (fst (np_random_shuffle E (rng s) (X_train s))) = n).
    { rewrite <- Hn. symmetry. apply Permutation_length, Hc. }
    destruct (IH s1) as (s2 & evs & H2 & Hn2 & Hl2 & Hb2 & HD & HG); [congruence|].
    eexists s2, _. cbn [for_each]. unfold bind. rewrite H1, H2.
    split; [reflexivity|]. split; [assumption|]. split.
    { rewrite Hl2, Hl, <- app_assoc. reflexivity. }
    split.
    { rewrite Hb2, Hb.
      change (Shuffle :: ?a ++ ckpt) with ([Shuffle] ++ (a ++ ckpt)).
      rewrite !backend_after_app, Hid. reflexivity. }
    destruct (count_steps_of_epoch
                (fst (np_random_shuffle E (rng s) (X_train s))) ratio
                (snd (np_random_shuffle E (rng s) (X_train s)))) as [CD CG].
    unfold groups_per_epoch in CD, CG. rewrite HlenX in CD, CG. fold groups in CD, CG.
    change (Shuffle :: ?a ++ ckpt) with ([Shuffle] ++ (a ++ ckpt)).
    rewrite !count_app. fold ratio. rewrite CD, CG, HD, HG.
    rewrite !(count_none _ ckpt) by
      (assumption || (intros [] Hx; try discriminate Hx; reflexivity)).
    cbn [length]. unfold count. cbn. lia.
Qed.

(** X15. With a positive training ratio [r] (and a shuffle that permutes),
    the loop runs its 50 passes from any state.  With [N] the number of
    samples of [X_train] and [g = N / (BATCH_SIZE * r)], it makes
    [50 * g * r] discriminator steps and [50 * g] generator steps: the
    graph at the end is the graph at the start after these calls to
    [train_on_batch], in the order of the log; and it writes the 100
    checkpoint files. *)
Theorem training_loop_step_counts (s : state E) :
  shuffle_contract E ->
  (0 < training_ratio args)%Z ->
  let r := Z.to_nat (training_ratio args) in
  let g := (length (X_train s) / (Z.to_nat BATCH_SIZE * r))%nat in
  exists (s' : state E) (evs : list (event E)),
    training_loop args s = (Ok tt, s') /\
    log s' = log s ++ evs /\
    backend s' = backend_after evs (backend s) /\
    count is_discriminator_step evs = (50 * (g * r))%nat /\
    count is_generator_step evs = (50 * g)%nat /\
    files_written evs =
      flat_map (checkpoint_files (output_dir args))
               (map (fun k => 2 * k + 1)%Z (Py.range 25)).
Proof.
  intros Hc Hpos r g.
  assert (Hnz : training_ratio args <> 0%Z) by lia.
  destruct (epochs_step_counts (Py.range 50) Hc Hpos s eq_refl)
    as (s2 & evs & H2 & _ & Hl2 & Hb2 & HD & HG).
  destruct (epochs_run args (Py.range 50) s Hnz) as (s2' & segs & H2' & Hl2' & Hseg).
  rewrite H2 in H2'. injection H2' as <-.
  assert (Hevs : evs = concat segs).
  { rewrite Hl2 in Hl2'. apply app_inv_head in Hl2'. assumption. }
  exists s2, evs. unfold training_loop.
  split; [exact H2|]. split; [exact Hl2|]. split; [exact Hb2|].
  split; [exact HD|]. split; [exact HG|].
  rewrite Hevs, (segments_files Hseg). reflexivity.
Qed.

(** *** The array the loop trains on *)














End EndingFacts.

Lemma training_loop_zero_ratio_witness :
  training_ratio (toy_args 0 None) = 0%Z /\
  exists s',
    training_loop (toy_args 0 None) toy_loaded = (Raise Py.ZeroDivisionError, s') /\
    log s' = (log toy_loaded ++ [Shuffle])%list /\
    backend s' = backend toy_loaded.
Proof.
  split; [reflexivity|].
  destruct (@training_loop_zero_ratio toy (toy_args 0 None) toy_loaded eq_refl)
    as (s' & H & Hl & _ & Hb).
  exists s'. split; [exact H|]. split; assumption.
Defined.

Lemma training_loop_negative_ratio_witness :
  (training_ratio (toy_args (-1) None) < 0)%Z /\
  exists s' evs,
    training_loop (toy_args (-1) None) toy_loaded = (Ok tt, s') /\
    log s' = (log toy_loaded ++ evs)%list /\
    existsb is_train_step evs = false /\
    backend s' = backend toy_loaded /\
    length (files_written evs) = 100%nat.
Proof.
  assert (Hneg : (training_ratio (toy_args (-1) None) < 0)%Z) by (cbn; lia).
  split; [exact Hneg|].
  destruct (@training_loop_negative_ratio toy (toy_args (-1) None) toy_loaded Hneg)
    as (s' & evs & H & Hl & Hn & Hb & Hf).
  exists s', evs. split; [exact H|]. split; [exact Hl|]. split; [exact Hn|].
  split; [exact Hb|]. rewrite Hf. reflexivity.
Defined.

Lemma training_loop_step_counts_witness :
  shuffle_contract toy /\
  (0 < training_ratio (toy_args 1 None))%Z /\
  exists s' evs,
    training_loop (toy_args 1 None) toy_loaded = (Ok tt, s') /\
    log s' = (log toy_loaded ++ evs)%list /\
    backend s' = backend_after evs (backend toy_loaded) /\
    count is_discriminator_step evs = 100%nat /\
    count is_generator_step evs = 100%nat.
Proof.
  assert (Hpos : (0 < training_ratio (toy_args 1 None))%Z) by (cbn; lia).
  split; [exact toy_shuffle_contract|]. split; [exact Hpos|].
  destruct (@training_loop_step_counts toy (toy_args 1 None) toy_loaded
              toy_shuffle_contract Hpos)
    as (s' & evs & H & Hl & Hb & HD & HG & _).
  exists s', evs. split; [exact H|]. split; [exact Hl|]. split; [exact Hb|].
  split; [exact HD|exact HG].
Defined.


(** ** File names *)

Section FileNameFacts.

Local Open Scope string_scope.

Lemma append_inj_l (p a b : string) : p ++ a = p ++ b -> a = b.
Proof.
  induction p as [|c p IH]; cbn [append]; intros H; [exact H|].
  injection H as H. auto.
Qed.

Lemma length_append (a b : string) :
  String.length (a ++ b) = (String.length a + String.length b)%nat.
Proof. induction a as [|c a IH]; cbn; [reflexivity|]. rewrite IH. reflexivity. Qed.

Lemma append_inj_suffix (a b s t : string) :
  String.length s = String.length t -> a ++ s = b ++ t -> a = b /\ s = t.
Proof.
  intros Hlen. revert b. induction a as [|c a IH]; intros [|d b] H; cbn [append] in H.
  - auto.
  - apply (f_equal String.length) in H. cbn [String.length] in H.
    rewrite length_append in H. lia.
  - apply (f_equal String.length) in H. cbn [String.length] in H.
    rewrite length_append in H. lia.
  - injection H as -> H. destruct (IH b H) as [-> ->]. auto.
Qed.

Lemma append_assoc (a b c : string) : (a ++ b) ++ c = a ++ b ++ c.
Proof. induction a as [|x a IH]; cbn; [reflexivity|]. rewrite IH. reflexivity. Qed.

Lemma str_inj (n m : Z) : Py.str n = Py.str m -> n = m.
Proof.
  unfold Py.str. intros H. apply DecimalZ.to_int_inj.
  assert (Hnil : forall z, Z.to_int z <> Pos Nil /\ Z.to_int z <> Neg Nil).
  { intros [|q|q]; cbn; split; try discriminate; intros Hq; injection Hq as Hq;
      exact (DecimalPos.Unsigned.to_uint_nonnil q Hq). }
  assert (Hs : Some (Z.to_int n) = Some (Z.to_int m)).
  { rewrite <- (NilZero.isi (Z.to_int n)) by apply Hnil.
    rewrite <- (NilZero.isi (Z.to_int m)) by apply Hnil.
    rewrite H. reflexivity. }
  injection Hs as Hs. exact Hs.
Qed.

(** Joining a directory with a name that does not begin with a slash
    puts a prefix, which depends on the directory only, before the name. *)
Lemma os_path_join_prefix (dir : string) :
  exists p, forall b, Py.startswith b "/" = false -> Py.os_path_join dir b = p ++ b.
Proof.
  unfold Py.os_path_join.
  destruct ((String.length dir =? 0)%nat || Py.endswith dir "/").
  - exists dir. intros b ->. reflexivity.
  - exists (dir ++ "/"). intros b ->. rewrite append_assoc. reflexivity.
Qed.

Lemma epoch_file_inj (dir : string) (e1 e2 : Z) (s1 s2 : string) :
  In s1 [".png"; ".pkl"; "_g.h5"; "_d.h5"] ->
  In s2 [".png"; ".pkl"; "_g.h5"; "_d.h5"] ->
  epoch_file dir e1 s1 = epoch_file dir e2 s2 -> e1 = e2 /\ s1 = s2.
Proof.
  intros H1 H2 H. unfold epoch_file in H.
  destruct (os_path_join_prefix dir) as [p Hp].
  rewrite !Hp in H by reflexivity.
  apply append_inj_l in H. cbn [append] in H.
  injection H as H.
  assert (Hcut : forall a b u v, String.length u = String.length v ->
                   u <> v -> a ++ u <> b ++ v).
  { intros a b u v Hl Hne Heq. destruct (@append_inj_suffix _ _ _ _ Hl Heq). auto. }
  assert (Hsame : forall s, Py.str e1 ++ s = Py.str e2 ++ s -> e1 = e2).
  { intros s Hs. apply str_inj.
    destruct (@append_inj_suffix _ _ _ _ eq_refl Hs). assumption. }
  cbn [In] in H1, H2.
  destruct H1 as [<-|[<-|[<-|[<-|[]]]]]; destruct H2 as [<-|[<-|[<-|[<-|[]]]]];
    try (split; [exact (Hsame _ H)|reflexivity]); exfalso.
  - exact (Hcut _ _ ".png" ".pkl" eq_refl ltac:(discriminate) H).
  - change "_g.h5" with ("_" ++ "g.h5") in H. rewrite <- append_assoc in H.
    exact (Hcut _ _ ".png" "g.h5" eq_refl ltac:(discriminate) H).
  - change "_d.h5" with ("_" ++ "d.h5") in H. rewrite <- append_assoc in H.
    exact (Hcut _ _ ".png" "d.h5" eq_refl ltac:(discriminate) H).
  - exact (Hcut _ _ ".pkl" ".png" eq_refl ltac:(discriminate) H).
  - change "_g.h5" with ("_" ++ "g.h5") in H. rewrite <- append_assoc in H.
    exact (Hcut _ _ ".pkl" "g.h5" eq_refl ltac:(discriminate) H).
  - change "_d.h5" with ("_" ++ "d.h5") in H. rewrite <- append_assoc in H.
    exact (Hcut _ _ ".pkl" "d.h5" eq_refl ltac:(discriminate) H).
  - change "_g.h5" with ("_" ++ "g.h5") in H. rewrite <- append_assoc in H.
    exact (Hcut _ _ "g.h5" ".png" eq_refl ltac:(discriminate) H).
  - change "_g.h5" with ("_" ++ "g.h5") in H. rewrite <- append_assoc in H.
    exact (Hcut _ _ "g.h5" ".pkl" eq_refl ltac:(discriminate) H).
  - exact (Hcut _ _ "_g.h5" "_d.h5" eq_refl ltac:(discriminate) H).
  - change "_d.h5" with ("_" ++ "d.h5") in H. rewrite <- append_assoc in H.
    exact (Hcut _ _ "d.h5" ".png" eq_refl ltac:(discriminate) H).
  - change "_d.h5" with ("_" ++ "d.h5") in H. rewrite <- append_assoc in H.
    exact (Hcut _ _ "d.h5" ".pkl" eq_refl ltac:(discriminate) H).
  - exact (Hcut _ _ "_d.h5" "_g.h5" eq_refl ltac:(discriminate) H).
Qed.

Lemma in_checkpoint_files (dir : string) (e : Z) (f : string) :
  In f (checkpoint_files dir e) <->
  exists s, In s [".png"; ".pkl"; "_g.h5"; "_d.h5"] /\ f = epoch_file dir e s.
Proof.
  unfold checkpoint_files. split.
  - intros H. cbn [In] in H.
    destruct H as [<-|[<-|[<-|[<-|[]]]]]; eexists; (split; [|reflexivity]);
      cbn; auto.
  - intros (s & Hs & ->). cbn [In] in Hs |- *.
    destruct Hs as [<-|[<-|[<-|[<-|[]]]]]; auto.
Qed.

Lemma checkpoint_files_NoDup (dir : string) (e : Z) :
  NoDup (checkpoint_files dir e).
Proof.
  assert (H : forall s1 s2, In s1 [".png"; ".pkl"; "_g.h5"; "_d.h5"] ->
                In s2 [".png"; ".pkl"; "_g.h5"; "_d.h5"] -> s1 <> s2 ->
                epoch_file dir e s1 <> epoch_file dir e s2).
  { intros s1 s2 H1 H2 Hne Heq. destruct (@epoch_file_inj _ _ _ _ _ H1 H2 Heq). auto. }
  unfold checkpoint_files.
  repeat constructor; cbn [In]; intuition;
    match goal with
    | Heq : epoch_file _ _ _ = epoch_file _ _ _ |- _ =>
        revert Heq; apply H; cbn; auto; discriminate
    end.
Qed.

Lemma checkpoint_files_disjoint (dir : string) (e1 e2 : Z) (f : string) :
  In f (checkpoint_files dir e1) -> In f (checkpoint_files dir e2) -> e1 = e2.
Proof.
  intros H1 H2. apply in_checkpoint_files in H1, H2.
  destruct H1 as (s1 & Hs1 & ->). destruct H2 as (s2 & Hs2 & Heq).
  destruct (@epoch_file_inj _ _ _ _ _ Hs1 Hs2 Heq). assumption.
Qed.

(** X16. Checkpoints never overwrite one another: over loop indices
    without repetition, the files of the checkpoints are pairwise
    distinct paths, whatever the output directory. *)
Theorem checkpoint_paths_distinct (dir : string) (epochs : list Z) :
  NoDup epochs -> NoDup (flat_map (checkpoint_files dir) epochs).
Proof.
  induction 1 as [|e l Hnin Hnd IH]; cbn [flat_map]; [constructor|].
  assert (Hgen : forall l1, NoDup l1 ->
            (forall f, In f l1 -> ~ In f (flat_map (checkpoint_files dir) l)) ->
            NoDup (l1 ++ flat_map (checkpoint_files dir) l)).
  { induction 1 as [|x l1 Hx Hl1 IH1]; intros Hd; cbn [app]; [exact IH|].
    constructor.
    - rewrite in_app_iff. intros [Hin|Hin]; [auto|].
      apply (Hd x); [left; reflexivity|exact Hin].
    - apply IH1. intros f Hf. apply Hd. right. exact Hf. }
  apply Hgen; [apply checkpoint_files_NoDup|].
  intros f Hf Hin. apply in_flat_map in Hin. destruct Hin as (e' & He' & Hf').
  apply Hnin. rewrite (@checkpoint_files_disjoint _ _ _ _ Hf Hf'). exact He'.
Qed.

Variable E : Externals.
Variable args : Args.

Lemma in_files_of_run (dir : string) (e : Z) (s : string) :
  In s [".png"; ".pkl"; "_g.h5"; "_d.h5"] ->
  In (epoch_file dir e s) (files_of_run dir) <->
  (0 <= e < 50 /\ e mod 2 = 1)%Z.
Proof.
  intros Hs. unfold files_of_run. rewrite in_flat_map. split.
  - intros (e' & He' & Hin). apply in_checkpoint_files in Hin.
    destruct Hin as (s' & Hs' & Heq).
    destruct (@epoch_file_inj _ _ _ _ _ Hs Hs' Heq) as [-> _].
    apply in_map_iff in He'. destruct He' as (k & <- & Hk).
    assert (0 <= k < 25)%Z.
    { revert Hk. clear. unfold Py.range. rewrite in_map_iff.
      intros (i & <- & Hi). apply in_seq in Hi. cbn in Hi. lia. }
    split; [lia|].
    replace (2 * k + 1)%Z with (1 + k * 2)%Z by lia.
    rewrite Z.mod_add by lia. reflexivity.
  - intros [Hr Hodd]. exists e. split.
    + apply in_map_iff. exists (e / 2)%Z. split.
      * pose proof (Z.div_mod e 2 ltac:(lia)). lia.
      * unfold Py.range. apply in_map_iff. exists (Z.to_nat (e / 2)).
        assert (0 <= e / 2 < 25)%Z.
        { split; [apply Z.div_pos; lia|apply Z.div_lt_upper_bound; lia]. }
        split; [lia|]. apply in_seq. cbn. lia.
    + apply in_checkpoint_files. exists s. auto.
Qed.

(** X17. Reloading from the directory a complete run wrote to: when
    [--retrain_dir] is that directory and the weights load, the two files
    asked for are the generator and discriminator weights of the index
    [--retrain_epoch], and they are among the files of the run exactly
    when that index is odd and between 0 and 49.  The default index -1
    names no file of a run. *)
Theorem reload_weights_of_run (dir : string) (s s' : state E) :
  retrain_dir args = Some dir -> dir <> "" ->
  reload_weights args s = (Ok tt, s') ->
  let g := epoch_file dir (retrain_epoch args) "_g.h5" in
  let d := epoch_file dir (retrain_epoch args) "_d.h5" in
  log s' = (log s ++ [LoadWeights generator g; LoadWeights discriminator d])%list /\
  (In g (files_of_run dir) <->
     (0 <= retrain_epoch args < 50 /\ retrain_epoch args mod 2 = 1)%Z) /\
  (In d (files_of_run dir) <->
     (0 <= retrain_epoch args < 50 /\ retrain_epoch args mod 2 = 1)%Z) /\
  ~ In (epoch_file dir (-1) "_g.h5") (files_of_run dir) /\
  ~ In (epoch_file dir (-1) "_d.h5") (files_of_run dir).
Proof.
  intros Hdir Hne Hrun g d.
  split; [|split; [|split; [|split]]].
  - unfold reload_weights in Hrun. rewrite Hdir in Hrun.
    assert (Ht : Py.truthy (Some dir) = true).
    { destruct dir; [congruence|reflexivity]. }
    rewrite Ht in Hrun. cbv zeta in Hrun. fold g d in Hrun.
    unfold bind, try_backend, emit in Hrun.
    destruct (load_weights E generator g (backend s)) as [e|b]; [discriminate|].
    cbn [backend log rng X_train] in Hrun.
    destruct (load_weights E discriminator d b) as [e|b']; [discriminate|].
    injection Hrun as <-. cbn [log]. rewrite <- app_assoc. reflexivity.
  - apply in_files_of_run. cbn; auto.
  - apply in_files_of_run. cbn; auto.
  - rewrite in_files_of_run by (cbn; auto). lia.
  - rewrite in_files_of_run by (cbn; auto). lia.
Qed.

End FileNameFacts.

Lemma checkpoint_paths_distinct_witness :
  NoDup (map (fun k => 2 * k + 1)%Z (Py.range 25)) /\
  NoDup (files_of_run "out").
Proof.
  assert (H : NoDup (map (fun k => 2 * k + 1)%Z (Py.range 25))).
  { apply (NoDup_count_occ' Z.eq_dec). intros x Hx.
    repeat (destruct Hx as [<-|Hx]; [reflexivity|]). destruct Hx. }
  split; [exact H|].
  exact (@checkpoint_paths_distinct "out"%string _ H).
Defined.

Lemma reload_weights_of_run_witness :
  retrain_dir (toy_retrain_args 49) = Some "out"%string /\
  "out"%string <> ""%string /\
  reload_weights (toy_retrain_args 49) toy_start =
    (Ok tt, snd (reload_weights (toy_retrain_args 49) toy_start)) /\
  In (epoch_file "out" 49 "_g.h5") (files_of_run "out").
Proof.
  assert (Hne : "out"%string <> ""%string) by discriminate.
  assert (Hrun : reload_weights (E := toy) (toy_retrain_args 49) toy_start =
                   (Ok tt, snd (reload_weights (toy_retrain_args 49) toy_start)))
    by reflexivity.
  split; [reflexivity|]. split; [exact Hne|]. split; [exact Hrun|].
  destruct (@reload_weights_of_run toy (toy_retrain_args 49) "out"%string
              toy_start _ eq_refl Hne Hrun) as (_ & Hg & _).
  apply Hg. cbn. lia.
Defined.

(** * The losses and the interpolation layer in binary32 *)

(** ** Signs and rounding *)

Section Float32Facts.

Import K32.


Lemma round_aux_sign (s : bool) (m e : Z) (l : location) :
  binary_round_aux F32.prec F32.emax s m e l = S754_nan \/
  signbit (binary_round_aux F32.prec F32.emax s m e l) = s.
Proof.
  unfold binary_round_aux.
  destruct (shr_fexp F32.prec F32.emax m e l) as [mrs e'].
  destruct (shr_fexp F32.prec F32.emax _ e' loc_Exact) as [mrs' e''].
  destruct (shr_m mrs'); [right; reflexivity| |left; reflexivity].
  destruct (e'' <=? F32.emax - F32.prec)%Z; right; reflexivity.
Qed.
















Lemma fsquare_sign (d : spec_float) :
  fsquare d = S754_nan \/ signbit (fsquare d) = false.
Proof.
  unfold fsquare, fmul. destruct d as [s|s| |s m e]; cbn [SFmul signbit].
  - right. apply xorb_nilpotent.
  - right. apply xorb_nilpotent.
  - left. reflexivity.
  - rewrite xorb_nilpotent. apply round_aux_sign.
Qed.

Lemma fmul_sign (w q : spec_float) :
  signbit q = false ->
  fmul w q = S754_nan \/ signbit (fmul w q) = signbit w.
Proof.
  intros Hq. unfold fmul.
  destruct w as [sw|sw| |sw mw ew], q as [sq|sq| |sq mq eq_];
    cbn [SFmul signbit] in *; subst; rewrite ?xorb_false_r; auto.
  apply round_aux_sign.
Qed.

End Float32Facts.

(** ** Wasserstein loss *)

Section Wasserstein32.

Import K32.

Lemma zip_with32_length (f : spec_float -> spec_float -> spec_float)
    (a b : list spec_float) :
  length a = length b -> length (zip_with f a b) = length a.
Proof.
  revert b; induction a as [|x a IH]; intros [|y b] H; simpl in *;
    try discriminate; auto.
Qed.

Lemma broadcast32_same_shape (f : spec_float -> spec_float -> spec_float)
    (a b : list spec_float) :
  length a = length b -> broadcast2 f a b = Some (zip_with f a b).
Proof.
  intros H. unfold broadcast2. rewrite H, Nat.eqb_refl. reflexivity.
Qed.






Example wasserstein_loss_one_ulp_apart :
  Float32.wasserstein_loss [f32_tenth]
    [K32.fadd (K32.fmul f32_tenth f32_tenth) (K32.fmul f32_tenth f32_fifth)]
    = Some (S754_finite false 12884903 (-32)) /\
  K32.fadd (K32.fmul f32_tenth (S754_finite false 10737419 (-30)))
           (K32.fmul f32_tenth (S754_finite false 10737419 (-29)))
    = S754_finite false 12884902 (-32) /\
  Float32.wasserstein_loss [f32_tenth] [f32_tenth]
    = Some (S754_finite false 10737419 (-30)) /\
  Float32.wasserstein_loss [f32_tenth] [f32_fifth]
    = Some (S754_finite false 10737419 (-29)).
Proof. repeat split. Qed.

End Wasserstein32.

(** ** Gradient penalty *)

Section GradientPenalty32.

Import K32.

Variable K_gradients : (tensor -> spec_float) -> tensor -> list tensor.




(** X2. In [float32] the gradient penalty is NaN or carries the sign bit
    of the weight: with a weight that is not negative, it is never
    negative. *)
Theorem gradient_penalty_loss_signbit
    (y_true : list spec_float) (y_pred : K32.tensor -> list spec_float)
    (averaged_samples : K32.tensor) (weight : spec_float) :
  let loss := Float32.gradient_penalty_loss K_gradients y_true y_pred
                averaged_samples weight in
  loss = S754_nan \/ K32.signbit loss = K32.signbit weight.
Proof.
  intros loss. unfold loss, Float32.gradient_penalty_loss.
  set (d := fsub one _).
  destruct (fsquare_sign d) as [Hq|Hq].
  - left. rewrite Hq. unfold fmul. destruct weight; reflexivity.
  - apply fmul_sign. exact Hq.
Qed.

End GradientPenalty32.


(** The converse of the last part of C3 fails in [float32] in three more
    ways than with a weight of zero: a gradient whose norm is not 1 can
    have a computed norm of 1; the product with a small weight can round
    to zero; and with an infinite weight the loss at norm 1 is NaN. *)
Example gradient_penalty_norm_rounds_to_one :
  let K_gradients := const_gradient32 [K32.one; F32.of_scaled 1 (-20)] in
  Float32.l2_norm (Float32.gradient_components K_gradients (fun _ => []) [])
    = K32.one /\
  Float32.gradient_penalty_loss K_gradients [] (fun _ => []) [] (F32.of_Z 10)
    = S754_zero false.
Proof. split; reflexivity. Qed.

Example gradient_penalty_underflows :
  let K_gradients := const_gradient32 [F32.of_scaled 1 (-1)] in
  Float32.l2_norm (Float32.gradient_components K_gradients (fun _ => []) [])
    = F32.of_scaled 1 (-1) /\
  Float32.gradient_penalty_loss K_gradients [] (fun _ => []) []
    (F32.of_scaled 1 (-149)) = S754_zero false.
Proof. split; reflexivity. Qed.

Example gradient_penalty_infinite_weight :
  let K_gradients := const_gradient32 [K32.one] in
  Float32.l2_norm (Float32.gradient_components K_gradients (fun _ => []) [])
    = K32.one /\
  Float32.gradient_penalty_loss K_gradients [] (fun _ => []) []
    (S754_infinity false) = S754_nan.
Proof. split; reflexivity. Qed.

(** ** Interpolated samples *)

Section RandomWeightedAverage32.

Import K32.

Variable Gen : Type.
Variable K_random_uniform : Z -> Gen -> list spec_float * Gen.

Lemma mixed_row_component32 (w : spec_float) (r_s g_s : list spec_float) :
  length r_s = length g_s ->
  forall c r g o,
    nth_error r_s c = Some r -> nth_error g_s c = Some g ->
    nth_error (zip_with fadd (scale w r_s) (scale (fsub one w) g_s)) c = Some o ->
    o = fadd (fmul w r) (fmul (fsub one w) g).
Proof.
  revert g_s; induction r_s as [|x r_s IH]; intros [|y g_s] Hlen c r g o;
    simpl in *; try discriminate.
  - destruct c; discriminate.
  - injection Hlen as Hlen. destruct c as [|c]; simpl.
    + intros [= <-] [= <-] [= <-]. reflexivity.
    + apply (IH g_s Hlen c).
Qed.

Lemma add_rows_scaled32 (ws : list spec_float) (real gen : tensor) :
  length ws = length real ->
  Forall2 (fun r s => length r = length s) real gen ->
  exists out,
    Float32.add_rows (Float32.scale_rows ws real)
      (Float32.scale_rows (map (fsub one) ws) gen) = Some out /\
    length out = length real /\
    forall i w r_s g_s o_s,
      nth_error ws i = Some w -> nth_error real i = Some r_s ->
      nth_error gen i = Some g_s -> nth_error out i = Some o_s ->
      length o_s = length r_s /\
      forall c r g o,
        nth_error r_s c = Some r -> nth_error g_s c = Some g ->
        nth_error o_s c = Some o -> o = fadd (fmul w r) (fmul (fsub one w) g).
Proof.
  intros Hlen Hshape. revert ws Hlen.
  induction Hshape as [|r_s g_s real gen Hrow Hrest IH]; intros [|w ws] Hlen;
    simpl in *; try discriminate.
  - exists []. split; [reflexivity|]. split; [reflexivity|].
    intros [|i]; discriminate.
  - injection Hlen as Hlen. destruct (IH ws Hlen) as (out & Hadd & Hout & Hnth).
    unfold add. rewrite broadcast32_same_shape
      by (unfold scale; rewrite !length_map; assumption).
    rewrite Hadd.
    exists (zip_with fadd (scale w r_s) (scale (fsub one w) g_s) :: out).
    split; [reflexivity|]. split; [simpl; congruence|].
    intros [|i] w0 r0 g0 o0; simpl.
    + intros [= <-] [= <-] [= <-] [= <-]. split.
      * rewrite zip_with32_length; unfold scale; rewrite !length_map; auto.
      * apply mixed_row_component32; assumption.
    + apply Hnth.
Qed.

(** C5 (as amended). With the backend's uniform generator keeping its
    contract, merging a batch of real samples with a batch of generated
    samples of the same shape succeeds; every pair of samples gets one
    weight [w], with [0 <= w < 1], used for all of its components; and
    every component of the output is [w * real + (1 - w) * generated]
    with each of the four operations rounded to [float32]. *)
Theorem random_weighted_average_float32 (real gen : K32.tensor) (g : Gen) :
  Float32.uniform_contract K_random_uniform ->
  length real = Z.to_nat BATCH_SIZE ->
  length gen = Z.to_nat BATCH_SIZE ->
  Forall2 (fun r s => length r = length s) real gen ->
  exists weights out g',
    K_random_uniform BATCH_SIZE g = (weights, g') /\
    Float32._merge_function K_random_uniform [real; gen] g = (Some out, g') /\
    length weights = Z.to_nat BATCH_SIZE /\
    length out = Z.to_nat BATCH_SIZE /\
    forall i r_s g_s o_s,
      nth_error real i = Some r_s -> nth_error gen i = Some g_s ->
      nth_error out i = Some o_s ->
      exists w,
        nth_error weights i = Some w /\
        SFleb K32.zero w = true /\ SFltb w K32.one = true /\
        length o_s = length r_s /\
        forall c r x o,
          nth_error r_s c = Some r -> nth_error g_s c = Some x ->
          nth_error o_s c = Some o ->
          o = K32.fadd (K32.fmul w r) (K32.fmul (K32.fsub K32.one w) x).
Proof.
  intros Hu Hreal Hgen Hshape.
  destruct (Hu BATCH_SIZE g) as [Hlen Hrange].
  destruct (K_random_uniform BATCH_SIZE g) as [weights g'] eqn:Hdraw.
  cbn [fst] in Hlen, Hrange.
  assert (Hw : length weights = length real) by congruence.
  destruct (add_rows_scaled32 weights Hw Hshape) as (out & Hadd & Hout & Hnth).
  exists weights, out, g'. split; [reflexivity|]. split.
  { unfold Float32._merge_function. rewrite Hdraw. simpl. unfold Float32.weighted.
    rewrite length_map, Hw, Nat.eqb_refl.
    rewrite (Forall2_length Hshape), Nat.eqb_refl.
    rewrite Hadd. reflexivity. }
  split; [assumption|]. split; [congruence|].
  intros i r_s g_s o_s Hr Hg Ho.
  destruct (nth_error weights i) as [w|] eqn:Hwi.
  - exists w. split; [reflexivity|].
    assert (Hin : Float32.in_unit_interval w).
    { rewrite Forall_forall in Hrange. apply Hrange.
      eapply nth_error_In; eassumption. }
    destruct Hin as [H0 H1]. split; [assumption|]. split; [assumption|].
    exact (Hnth i w r_s g_s o_s Hwi Hr Hg Ho).
  - apply nth_error_None in Hwi.
    assert (i < length real)%nat by (apply nth_error_Some; congruence).
    lia.
Qed.

End RandomWeightedAverage32.

Lemma toy_uniform32_contract : Float32.uniform_contract toy_uniform32.
Proof.
  intros n g. unfold toy_uniform32. cbn [fst]. split.
  - apply repeat_length.
  - apply Forall_forall. intros w Hw. apply repeat_spec in Hw. subst w.
    split; reflexivity.
Qed.

Lemma toy_tenths_same_shape :
  Forall2 (fun r s : list spec_float => length r = length s) toy_tenths toy_tenths.
Proof.
  unfold toy_tenths. induction (Z.to_nat BATCH_SIZE); simpl; constructor; auto.
Qed.

Lemma random_weighted_average_float32_witness :
  Float32.uniform_contract toy_uniform32 /\
  length toy_tenths = Z.to_nat BATCH_SIZE /\
  Forall2 (fun r s : list spec_float => length r = length s) toy_tenths toy_tenths /\
  exists out g',
    Float32._merge_function toy_uniform32 [toy_tenths; toy_tenths] 0%nat
      = (Some out, g') /\
    length out = Z.to_nat BATCH_SIZE.
Proof.
  assert (Hr : length toy_tenths = Z.to_nat BATCH_SIZE) by apply repeat_length.
  split; [exact toy_uniform32_contract|]. split; [exact Hr|].
  split; [exact toy_tenths_same_shape|].
  destruct (@random_weighted_average_float32 nat toy_uniform32 toy_tenths toy_tenths
              0%nat toy_uniform32_contract Hr Hr toy_tenths_same_shape)
    as (weights & out & g' & _ & Hm & _ & Hl & _).
  exists out, g'. split; assumption.
Defined.

(** C5, as stated, fails in [float32]: with the weight 3/16, a real and a
    generated component both equal to the float nearest to 0.1 give an
    output component above both. *)
Lemma random_weighted_average_leaves_interval :
  ~ (forall Gen (K_random_uniform : Z -> Gen -> list spec_float * Gen)
            (real gen : K32.tensor) (g : Gen) out i r_s g_s o_s c r x o,
        Float32.uniform_contract K_random_uniform ->
        fst (Float32._merge_function K_random_uniform [real; gen] g) = Some out ->
        nth_error real i = Some r_s -> nth_error gen i = Some g_s ->
        nth_error out i = Some o_s ->
        nth_error r_s c = Some r -> nth_error g_s c = Some x ->
        nth_error o_s c = Some o ->
        (SFleb r o = true /\ SFleb o x = true) \/
        (SFleb x o = true /\ SFleb o r = true)).
Proof.
  intros H.
  specialize (H nat toy_uniform32 toy_tenths toy_tenths 0%nat _ 0%nat _ _ _
                0%nat _ _ _ toy_uniform32_contract eq_refl eq_refl eq_refl
                eq_refl eq_refl eq_refl eq_refl).
  vm_compute in H. destruct H as [[_ H]|[_ H]]; discriminate.
Qed.

Example random_weighted_average_above :
  K32.fadd (K32.fmul (F32.of_scaled 3 (-4)) f32_tenth)
           (K32.fmul (K32.fsub K32.one (F32.of_scaled 3 (-4))) f32_tenth)
    = S754_finite false 13421774 (-27) /\
  f32_tenth = S754_finite false 13421773 (-27).
Proof. split; reflexivity. Qed.
